(** * CNAV frontend: questionnaire and auditor stores, pagination fallback

    A shallow embedding of the client-side logic of the CNAV compliance
    application:

    - [stores/company.ts]      the questionnaire progress store,
    - [stores/auditor.ts]      the auditor evaluation store,
    - the auditor evaluation page ([getEvaluationStats]) and the
      questionnaire page's guarded handlers,
    - [services/api/common.ts] ([applyPagination], [handleApiError]),
      [services/api/organizations.ts], [services/api/questions.ts] and
      [services/api/companies.ts] (the fallbacks taken when the backend
      is unavailable).

    Modelling conventions.

    - A JavaScript string is the list of its UTF-16 code units.
    - A [Record<string, V>] used as a dictionary is a [gmap]; a
      [Set<string>] is a [gset].
    - Counts, cursors and pagination arguments are integer-valued numbers
      and live in [Z]; percentages are quotients of such counts and live in
      the rationals [Qc]. Where rounding or NaN matters, the quotient is
      also computed in binary64 ([Binary64], [EvaluationPage]).
    - A zustand store is its state record; an action is a function from
      state to state ([set] merges the given fields into the state). *)

From stdpp Require Import base numbers option list strings gmap fin_maps fin_sets.
From Stdlib Require Import QArith Qcanon.
From Stdlib Require Import Floats.SpecFloat.

Local Open Scope Z_scope.

#[local] Set Warnings "-clear-no-such-hyp".

(** ** JavaScript strings *)

Abbreviation jsstring := (list N).

(** String literals of the sources, read code unit by code unit (the
    literals below are all ASCII). *)
Definition js (s : string) : jsstring :=
  Ascii.N_of_ascii <$> String.list_ascii_of_string s.

(** ECMAScript [WhiteSpace] and [LineTerminator] code points: the
    characters [String.prototype.trim] strips. *)
Definition is_white_space (c : N) : bool :=
  (   N.eqb c 0x0009 || N.eqb c 0x000A || N.eqb c 0x000B || N.eqb c 0x000C
   || N.eqb c 0x000D || N.eqb c 0x0020 || N.eqb c 0x00A0 || N.eqb c 0x1680
   || (N.leb 0x2000 c && N.leb c 0x200A)
   || N.eqb c 0x2028 || N.eqb c 0x2029 || N.eqb c 0x202F || N.eqb c 0x205F
   || N.eqb c 0x3000 || N.eqb c 0xFEFF)%bool.

Fixpoint trimStart (s : jsstring) : jsstring :=
  match s with
  | [] => []
  | c :: s' => if is_white_space c then trimStart s' else s
  end.

Definition trimEnd (s : jsstring) : jsstring :=
  reverse (trimStart (reverse s)).

Definition trim (s : jsstring) : jsstring := trimEnd (trimStart s).

(** Truthiness of a string ([if (s)]): exactly the non-empty strings. *)
Definition truthy_string (s : jsstring) : bool :=
  match s with [] => false | _ :: _ => true end.

(** Truthiness of a number ([if (n)], [n && ...]): exactly the non-zero
    ones (the model has no NaN). *)
Definition truthy_number (n : Z) : bool := negb (n =? 0).

(** [arr[i]] for an integer [i]: [undefined] (here [None]) outside
    [0 .. length-1], also for negative [i]. *)
Definition array_get {A} (arr : list A) (i : Z) : option A :=
  if i <? 0 then None else arr !! Z.to_nat i.

(** [arr.length] as a number. *)
Definition array_length {A} (arr : list A) : Z := Z.of_nat (length arr).

(** An integer-valued number inside a division: [a / b * 100] on counts
    is computed in the rationals. *)
Definition num (z : Z) : Qc := Q2Qc (inject_Z z).

(** [Object.keys(o)] and [Object.values(o)] of a dictionary. The order of
    enumeration is not modelled: the sources only count the entries. *)
Definition object_keys {V} (o : gmap (list N) V) : list jsstring :=
  (map_to_list o).*1.

Definition object_values {V} (o : gmap (list N) V) : list V :=
  (map_to_list o).*2.

(** ** Data model ([types/]) *)

(** A browser [File] object; the stores only pass it around, so it is
    represented by its identity. *)
Inductive File := FileObject (handle : N).

(** [types/organization.ts] *)
Record Organization := {
  org_id : jsstring;
  organisation_name : jsstring;
  acra_number_uen : option jsstring;
  annual_turnover : option Z;
  number_of_employees : option Z;
  date_of_self_assessment : option jsstring;
  scope_of_certification : option jsstring;
  created_at : jsstring;
  updated_at : jsstring
}.

Inductive CompanyStatus := StatusActive | StatusCompleted | StatusPending.

(** [interface Company extends Organization] *)
Record Company := {
  organization : Organization;
  name : jsstring;
  registrationDate : jsstring;
  status : CompanyStatus;
  contactEmail : option jsstring;
  contactPerson : option jsstring
}.

(** Modelled from the spec: the [Question] interface ([types/question.ts]
    is not among the sources): identifier, question text, audience tags,
    compliance-framework reference, category tag and related provision
    identifiers, with the field names of the [MOCK_QUESTIONS] entries. *)
Record Question := {
  q_id : jsstring;
  q_question : jsstring;
  q_audience : list jsstring;
  q_cyberessentials_requirement : jsstring;
  q_group_tag : jsstring;
  q_provisions : list jsstring
}.

Global Instance Question_inhabited : Inhabited Question :=
  populate {| q_id := []; q_question := []; q_audience := [];
              q_cyberessentials_requirement := []; q_group_tag := [];
              q_provisions := [] |}.

(** [types/provision.ts] *)
Record Provision := {
  p_id : jsstring;
  p_section : jsstring;
  p_subsection : jsstring;
  p_clause : jsstring;
  p_subclause : jsstring;
  p_provision : jsstring;
  p_keywords : option (list jsstring);
  p_questions : option (list jsstring)
}.

(** Modelled from the spec: the [Answer] interface ([types/answer.ts] is
    not among the sources): question identifier, free-text response,
    optional attached files, submission timestamp and owning company
    identifier, with the field names [answersApi] uses. *)
Record Answer := {
  a_questionId : jsstring;
  a_answer : jsstring;
  a_files : option (list File);
  a_timestamp : jsstring;
  a_companyId : jsstring
}.

(** [types/evaluation.ts] *)
Inductive EvaluationResult := Pass | Fail | Pending.

Global Instance EvaluationResult_eq_dec : EqDecision EvaluationResult.
Proof. solve_decision. Defined.

Record Evaluation := {
  e_questionId : jsstring;
  e_answer : jsstring;
  result : EvaluationResult;
  reason : option jsstring;
  auditorNotes : option jsstring;
  evaluatedBy : option jsstring;
  evaluatedAt : option jsstring
}.

Record QuestionEvaluation := {
  qe_question : Question;
  qe_answer : Answer;
  qe_evaluation : Evaluation
}.

Inductive OverallResult := OverallPass | OverallFail | OverallPartial.

Record ProvisionEvaluation := {
  pe_provisionId : jsstring;
  pe_provision : Provision;
  pe_questions : list QuestionEvaluation;
  overallResult : OverallResult;
  pe_passPercentage : Qc
}.

(** ** The questionnaire store ([stores/company.ts]) *)

Module CompanyStore.

(** The value stored per question id: [{ answer, files }]. *)
Record AnswerEntry := {
  answer : jsstring;
  files : list File
}.

Record CompanyState := {
  currentCompany : option Company;
  questions : list Question;
  answers : gmap (list N) AnswerEntry;
  currentQuestionIndex : Z;
  isSubmitted : bool;
  completedQuestions : gset (list N)
}.

(** Initial state of [create(...)]. *)
Definition initial : CompanyState := {|
  currentCompany := None;
  questions := [];
  answers := ∅;
  currentQuestionIndex := 0;
  isSubmitted := false;
  completedQuestions := ∅
|}.

(** *** Actions *)

Definition setCurrentCompany (company : option Company) (st : CompanyState)
  : CompanyState :=
  {| currentCompany := company;
     questions := questions st;
     answers := answers st;
     currentQuestionIndex := currentQuestionIndex st;
     isSubmitted := isSubmitted st;
     completedQuestions := completedQuestions st |}.

Definition setQuestions (qs : list Question) (st : CompanyState)
  : CompanyState :=
  {| currentCompany := currentCompany st;
     questions := qs;
     answers := answers st;
     currentQuestionIndex := 0;
     isSubmitted := isSubmitted st;
     completedQuestions := completedQuestions st |}.

(** [files] is the optional third argument; [files || []] keeps a given
    array (arrays are truthy, also the empty one). *)
Definition setAnswer (questionId answer_ : jsstring)
    (files_ : option (list File)) (st : CompanyState) : CompanyState :=
  let newAnswers :=
    <[questionId := {| answer := answer_; files := default [] files_ |}]>
      (answers st) in
  let newCompletedQuestions :=
    if truthy_string (trim answer_)
    then {[questionId]} ∪ completedQuestions st
    else completedQuestions st ∖ {[questionId]} in
  {| currentCompany := currentCompany st;
     questions := questions st;
     answers := newAnswers;
     currentQuestionIndex := currentQuestionIndex st;
     isSubmitted := isSubmitted st;
     completedQuestions := newCompletedQuestions |}.

Definition setCurrentQuestionIndex (index : Z) (st : CompanyState)
  : CompanyState :=
  {| currentCompany := currentCompany st;
     questions := questions st;
     answers := answers st;
     currentQuestionIndex := index;
     isSubmitted := isSubmitted st;
     completedQuestions := completedQuestions st |}.

Definition markQuestionCompleted (questionId : jsstring) (st : CompanyState)
  : CompanyState :=
  {| currentCompany := currentCompany st;
     questions := questions st;
     answers := answers st;
     currentQuestionIndex := currentQuestionIndex st;
     isSubmitted := isSubmitted st;
     completedQuestions := {[questionId]} ∪ completedQuestions st |}.

Definition submitAnswers (st : CompanyState) : CompanyState :=
  {| currentCompany := currentCompany st;
     questions := questions st;
     answers := answers st;
     currentQuestionIndex := currentQuestionIndex st;
     isSubmitted := true;
     completedQuestions := completedQuestions st |}.

Definition resetQuestionnaire (st : CompanyState) : CompanyState :=
  {| currentCompany := currentCompany st;
     questions := questions st;
     answers := ∅;
     currentQuestionIndex := 0;
     isSubmitted := false;
     completedQuestions := ∅ |}.

(** *** Computed functions *)

Definition set_size (s : gset (list N)) : Z := Z.of_nat (size s).

Definition getProgress (st : CompanyState) : Qc :=
  if array_length (questions st) =? 0 then 0%Qc
  else (num (set_size (completedQuestions st))
        / num (array_length (questions st)) * num 100)%Qc.

(** [state.questions[state.currentQuestionIndex] || null]: a question
    object is truthy, so [||] only turns [undefined] into [null]; both
    are [None] here. *)
Definition getCurrentQuestion (st : CompanyState) : option Question :=
  match array_get (questions st) (currentQuestionIndex st) with
  | Some q => Some q
  | None => None
  end.

Definition isQuestionCompleted (questionId : jsstring) (st : CompanyState)
  : bool :=
  bool_decide (questionId ∈ completedQuestions st).

Definition canSubmit (st : CompanyState) : bool :=
  (array_length (questions st) >? 0)
  && (set_size (completedQuestions st) =? array_length (questions st)).

(** *** The store as a transition system *)

Inductive Action :=
| SetCurrentCompany (company : option Company)
| SetQuestions (qs : list Question)
| SetAnswer (questionId answer_ : jsstring) (files_ : option (list File))
| SetCurrentQuestionIndex (index : Z)
| MarkQuestionCompleted (questionId : jsstring)
| SubmitAnswers
| ResetQuestionnaire.

Definition dispatch (st : CompanyState) (a : Action) : CompanyState :=
  match a with
  | SetCurrentCompany c => setCurrentCompany c st
  | SetQuestions qs => setQuestions qs st
  | SetAnswer i t f => setAnswer i t f st
  | SetCurrentQuestionIndex i => setCurrentQuestionIndex i st
  | MarkQuestionCompleted i => markQuestionCompleted i st
  | SubmitAnswers => submitAnswers st
  | ResetQuestionnaire => resetQuestionnaire st
  end.

Definition run (st : CompanyState) (acts : list Action) : CompanyState :=
  foldl dispatch st acts.

Definition is_reset (a : Action) : bool :=
  match a with ResetQuestionnaire => true | _ => false end.

(** A series of [setAnswer] calls, one per element, in order. *)
Record AnswerCall := {
  call_questionId : jsstring;
  call_answer : jsstring;
  call_files : option (list File)
}.

Definition setAnswers (calls : list AnswerCall) (st : CompanyState)
  : CompanyState :=
  foldl (λ s c, setAnswer (call_questionId c) (call_answer c) (call_files c) s)
        st calls.

(** *** The questionnaire page ([app/company/questionnaire/page.tsx]) *)

Definition navigateToQuestion (index : Z) (st : CompanyState)
  : CompanyState :=
  if (index >=? 0) && (index <? array_length (questions st))
  then setCurrentQuestionIndex index st
  else st.

(** [handleSubmit]: [if (!canSubmit()) return; submitAnswers();] (the
    route change that follows does not touch the store). *)
Definition handleSubmit (st : CompanyState) : CompanyState :=
  if negb (canSubmit st) then st else submitAnswers st.

(** What can happen to the store: any of its own actions, called with
    string ids, and the page's two guarded handlers [navigateToQuestion]
    and [handleSubmit]. *)
Inductive Event :=
| Store (a : Action)
| NavigateToQuestion (index : Z)
| HandleSubmit.

Definition step (st : CompanyState) (ev : Event) : CompanyState :=
  match ev with
  | Store a => dispatch st a
  | NavigateToQuestion i => navigateToQuestion i st
  | HandleSubmit => handleSubmit st
  end.

Definition steps (st : CompanyState) (evs : list Event) : CompanyState :=
  foldl step st evs.

(** Direct calls of [setCurrentQuestionIndex] and of [submitAnswers],
    that is, calls that bypass the two handlers. *)
Definition sets_cursor_directly (ev : Event) : bool :=
  match ev with Store (SetCurrentQuestionIndex _) => true | _ => false end.

Definition submits_directly (ev : Event) : bool :=
  match ev with Store SubmitAnswers => true | _ => false end.

(** *** State predicates used by the properties below *)

(** The completed set holds exactly the ids whose recorded answer is
    non-empty after trimming. *)
Definition completion_tracks_answers (st : CompanyState) : Prop :=
  ∀ questionId,
    questionId ∈ completedQuestions st
    ↔ ∃ e, answers st !! questionId = Some e
           ∧ truthy_string (trim (answer e)) = true.

(** The cursor points into the question list, or rests on 0 when the
    list is empty. *)
Definition cursor_in_list (st : CompanyState) : Prop :=
  0 ≤ currentQuestionIndex st
  ∧ (currentQuestionIndex st < array_length (questions st)
     ∨ (currentQuestionIndex st = 0 ∧ questions st = [])).

Definition is_mark (a : Action) : bool :=
  match a with MarkQuestionCompleted _ => true | _ => false end.

End CompanyStore.

(** ** The auditor store ([stores/auditor.ts]) *)

Module AuditorStore.

Record AuditorState := {
  companies : list Company;
  selectedCompany : option Company;
  questions : list Question;
  provisions : list Provision;
  answers : list Answer;
  evaluations : gmap (list N) Evaluation;
  provisionEvaluations : gmap (list N) ProvisionEvaluation;
  currentProvisionId : option jsstring;
  loading : bool;
  error : option jsstring
}.

Definition initial : AuditorState := {|
  companies := [];
  selectedCompany := None;
  questions := [];
  provisions := [];
  answers := [];
  evaluations := ∅;
  provisionEvaluations := ∅;
  currentProvisionId := None;
  loading := false;
  error := None
|}.

(** *** Actions *)

Definition setCompanies (cs : list Company) (st : AuditorState)
  : AuditorState :=
  {| companies := cs;
     selectedCompany := selectedCompany st;
     questions := questions st;
     provisions := provisions st;
     answers := answers st;
     evaluations := evaluations st;
     provisionEvaluations := provisionEvaluations st;
     currentProvisionId := currentProvisionId st;
     loading := loading st;
     error := error st |}.

Definition setSelectedCompany (company : option Company) (st : AuditorState)
  : AuditorState :=
  {| companies := companies st;
     selectedCompany := company;
     questions := questions st;
     provisions := provisions st;
     answers := answers st;
     evaluations := ∅;
     provisionEvaluations := ∅;
     currentProvisionId := None;
     loading := loading st;
     error := error st |}.

Definition setQuestions (qs : list Question) (st : AuditorState)
  : AuditorState :=
  {| companies := companies st;
     selectedCompany := selectedCompany st;
     questions := qs;
     provisions := provisions st;
     answers := answers st;
     evaluations := evaluations st;
     provisionEvaluations := provisionEvaluations st;
     currentProvisionId := currentProvisionId st;
     loading := loading st;
     error := error st |}.

Definition setProvisions (ps : list Provision) (st : AuditorState)
  : AuditorState :=
  {| companies := companies st;
     selectedCompany := selectedCompany st;
     questions := questions st;
     provisions := ps;
     answers := answers st;
     evaluations := evaluations st;
     provisionEvaluations := provisionEvaluations st;
     currentProvisionId := currentProvisionId st;
     loading := loading st;
     error := error st |}.

Definition setAnswers (ans : list Answer) (st : AuditorState)
  : AuditorState :=
  {| companies := companies st;
     selectedCompany := selectedCompany st;
     questions := questions st;
     provisions := provisions st;
     answers := ans;
     evaluations := evaluations st;
     provisionEvaluations := provisionEvaluations st;
     currentProvisionId := currentProvisionId st;
     loading := loading st;
     error := error st |}.

Definition setCurrentProvisionId (provisionId : option jsstring)
    (st : AuditorState) : AuditorState :=
  {| companies := companies st;
     selectedCompany := selectedCompany st;
     questions := questions st;
     provisions := provisions st;
     answers := answers st;
     evaluations := evaluations st;
     provisionEvaluations := provisionEvaluations st;
     currentProvisionId := provisionId;
     loading := loading st;
     error := error st |}.

Definition setEvaluation (questionId : jsstring) (evaluation : Evaluation)
    (st : AuditorState) : AuditorState :=
  {| companies := companies st;
     selectedCompany := selectedCompany st;
     questions := questions st;
     provisions := provisions st;
     answers := answers st;
     evaluations := <[questionId := evaluation]> (evaluations st);
     provisionEvaluations := provisionEvaluations st;
     currentProvisionId := currentProvisionId st;
     loading := loading st;
     error := error st |}.

Definition setProvisionEvaluation (provisionId : jsstring)
    (evaluation : ProvisionEvaluation) (st : AuditorState) : AuditorState :=
  {| companies := companies st;
     selectedCompany := selectedCompany st;
     questions := questions st;
     provisions := provisions st;
     answers := answers st;
     evaluations := evaluations st;
     provisionEvaluations :=
       <[provisionId := evaluation]> (provisionEvaluations st);
     currentProvisionId := currentProvisionId st;
     loading := loading st;
     error := error st |}.

Definition clearEvaluations (st : AuditorState) : AuditorState :=
  {| companies := companies st;
     selectedCompany := selectedCompany st;
     questions := questions st;
     provisions := provisions st;
     answers := answers st;
     evaluations := ∅;
     provisionEvaluations := ∅;
     currentProvisionId := None;
     loading := loading st;
     error := error st |}.

(** *** The evaluation page: [getEvaluationStats]

    The page reads [questions] and [evaluations] from the store. *)

Record EvaluationStats := {
  total : Z;
  evaluated : Z;
  passed : Z;
  failed : Z;
  pending : Z;
  completionPercentage : Qc;
  passPercentage : Qc
}.

Definition getEvaluationStats (st : AuditorState) : EvaluationStats :=
  let totalQuestions := array_length (questions st) in
  let evaluatedQuestions := array_length (object_keys (evaluations st)) in
  let passedQuestions :=
    array_length
      (filter (λ e, result e = Pass) (object_values (evaluations st))) in
  let failedQuestions :=
    array_length
      (filter (λ e, result e = Fail) (object_values (evaluations st))) in
  {| total := totalQuestions;
     evaluated := evaluatedQuestions;
     passed := passedQuestions;
     failed := failedQuestions;
     pending := totalQuestions - evaluatedQuestions;
     completionPercentage :=
       if totalQuestions >? 0
       then (num evaluatedQuestions / num totalQuestions * num 100)%Qc
       else 0%Qc;
     passPercentage :=
       if evaluatedQuestions >? 0
       then (num passedQuestions / num evaluatedQuestions * num 100)%Qc
       else 0%Qc |}.

(** *** Further computed functions of the store *)

Global Instance OverallResult_eq_dec : EqDecision OverallResult.
Proof. solve_decision. Defined.

(** [types/evaluation.ts]: [ComplianceReport]. *)
Record ComplianceReport := {
  cr_companyId : jsstring;
  cr_company : Company;
  cr_provisions : list ProvisionEvaluation;
  overallScore : Qc;
  totalProvisions : Z;
  passedProvisions : Z;
  completionDate : jsstring;
  generatedBy : jsstring
}.

(** [getComplianceReport]; [now] stands for [new Date().toISOString()]
    at the time of the call. *)
Definition getComplianceReport (now : jsstring) (companyId : jsstring)
    (st : AuditorState) : option ComplianceReport :=
  let company :=
    List.find (λ c, bool_decide (org_id (organization c) = companyId))
              (companies st) in
  match company, selectedCompany st with
  | Some company, Some _ =>
      let provisionEvaluations_ := object_values (provisionEvaluations st) in
      let totalProvisions_ := array_length provisionEvaluations_ in
      let passedProvisions_ :=
        array_length
          (filter (λ pe, overallResult pe = OverallPass) provisionEvaluations_) in
      let overallScore_ :=
        if totalProvisions_ >? 0
        then (num passedProvisions_ / num totalProvisions_ * num 100)%Qc
        else 0%Qc in
      Some {| cr_companyId := companyId;
              cr_company := company;
              cr_provisions := provisionEvaluations_;
              overallScore := overallScore_;
              totalProvisions := totalProvisions_;
              passedProvisions := passedProvisions_;
              completionDate := now;
              generatedBy := js "Current Auditor" |}
  | _, _ => None
  end.

(** [report?.overallScore || 0] *)
Definition getOverallComplianceScore (now : jsstring) (companyId : jsstring)
    (st : AuditorState) : Qc :=
  match getComplianceReport now companyId st with
  | Some report =>
      if bool_decide (overallScore report = 0%Qc) then 0%Qc
      else overallScore report
  | None => 0%Qc
  end.

End AuditorStore.

(** ** JavaScript numbers as binary64

    A JavaScript number is an IEEE 754 binary64 value. [spec_float] with
    53 bits of precision and exponent bound 1024 is that format, with
    round-to-nearest-even division and multiplication. *)

Module Binary64.

Definition prec : Z := 53.
Definition emax : Z := 1024.

(** An integer as a number (exact below 2^53 in absolute value). *)
Definition of_int (n : Z) : spec_float := binary_normalize prec emax n 0 false.

(** [x / y] and [x * y]. *)
Definition div (x y : spec_float) : spec_float := SFdiv prec emax x y.
Definition mul (x y : spec_float) : spec_float := SFmul prec emax x y.

Definition is_nan (x : spec_float) : bool :=
  match x with S754_nan => true | _ => false end.

End Binary64.

(** ** The evaluation page's [getEvaluationStats] in binary64

    The same function as [AuditorStore.getEvaluationStats], with the two
    percentages computed as the program computes them: the quotient of
    two counts rounded to binary64, then the product with 100 rounded
    again. The counts themselves are integers either way. *)

Module EvaluationPage.

Record EvaluationStats := {
  total : Z;
  evaluated : Z;
  passed : Z;
  failed : Z;
  pending : Z;
  completionPercentage : spec_float;
  passPercentage : spec_float
}.

Definition getEvaluationStats (st : AuditorStore.AuditorState)
  : EvaluationStats :=
  let totalQuestions := array_length (AuditorStore.questions st) in
  let evaluatedQuestions :=
    array_length (object_keys (AuditorStore.evaluations st)) in
  let passedQuestions :=
    array_length
      (filter (λ e, result e = Pass)
              (object_values (AuditorStore.evaluations st))) in
  let failedQuestions :=
    array_length
      (filter (λ e, result e = Fail)
              (object_values (AuditorStore.evaluations st))) in
  {| total := totalQuestions;
     evaluated := evaluatedQuestions;
     passed := passedQuestions;
     failed := failedQuestions;
     pending := totalQuestions - evaluatedQuestions;
     completionPercentage :=
       if totalQuestions >? 0
       then Binary64.mul
              (Binary64.div (Binary64.of_int evaluatedQuestions)
                            (Binary64.of_int totalQuestions))
              (Binary64.of_int 100)
       else Binary64.of_int 0;
     passPercentage :=
       if evaluatedQuestions >? 0
       then Binary64.mul
              (Binary64.div (Binary64.of_int passedQuestions)
                            (Binary64.of_int evaluatedQuestions))
              (Binary64.of_int 100)
       else Binary64.of_int 0 |}.

End EvaluationPage.

(** ** Pagination helper ([services/api/common.ts]) *)

Module Pagination.

(** [{ limit?: number; offset?: number }] *)
Record Options := {
  limit : option Z;
  offset : option Z
}.

(** [Array.prototype.slice(start, end)] on integer arguments: a negative
    position counts from the end, every position is clamped to
    [0 .. length]; [end] absent means [length]. *)
Definition relative_index (len pos : Z) : Z :=
  if pos <? 0 then Z.max (len + pos) 0 else Z.min pos len.

Definition slice {A} (arr : list A) (start : Z) (end_ : option Z) : list A :=
  let len := array_length arr in
  let k := relative_index len start in
  let final := from_option (relative_index len) len end_ in
  take (Z.to_nat (final - k)) (drop (Z.to_nat k) arr).

(** [options?.offset] and [options?.limit]: [undefined] when [options]
    or the field is absent. *)
Definition applyPagination {A} (items : list A) (options : option Options)
  : list A :=
  let result := items in
  let result :=
    match options ≫= offset with
    | Some off =>
        if truthy_number off && (off <? array_length result)
        then slice result off None
        else result
    | None => result
    end in
  let result :=
    match options ≫= limit with
    | Some lim =>
        if truthy_number lim then slice result 0 (Some lim) else result
    | None => result
    end in
  result.

(** The reading of the specification, to compare [applyPagination]
    with: skip the first [offset] items, then keep at most [limit]
    items; an absent field skips, respectively cuts, nothing. *)
Definition paginate_spec {A} (items : list A) (lim off : option nat)
  : list A :=
  let skipped := from_option (λ o, drop o items) items off in
  from_option (λ l, take l skipped) skipped lim.

Definition options_of (lim off : option nat) : Options :=
  {| limit := Z.of_nat <$> lim; offset := Z.of_nat <$> off |}.

(** *** [handleApiError]

    The error object is the one the HTTP client rejects with: an
    optional [response] whose optional [data] may carry [detail] and
    [message], an optional [request], and an optional [message]; the
    texts are strings when present. *)
Record ResponseData := {
  detail : option jsstring;
  message : option jsstring
}.

Record ErrorResponse := {
  data : option ResponseData
}.

Record ApiError := {
  response : option ErrorResponse;
  has_request : bool;
  error_message : option jsstring
}.

(** [a || b] where [a] is a string or [undefined]. *)
Definition or_else (a : option jsstring) (b : jsstring) : jsstring :=
  match a with
  | Some s => if truthy_string s then s else b
  | None => b
  end.

(** [fallbackMessage] defaults to ['An error occurred'] when the second
    argument is not passed. *)
Definition handleApiError (error : ApiError) (fallbackMessage_ : option jsstring)
  : jsstring :=
  let fallbackMessage := default (js "An error occurred") fallbackMessage_ in
  match response error with
  | Some r =>
      or_else (data r ≫= detail) (or_else (data r ≫= message) fallbackMessage)
  | None =>
      if has_request error
      then js "Network error - please check your connection"
      else or_else (error_message error) fallbackMessage
  end.

End Pagination.

(** ** Organizations API ([services/api/organizations.ts]) *)

Module OrganizationsApi.

(** The mock organizations table the module imports from [./mocks]. *)
Definition MOCK_ORGANIZATIONS : list Organization := [
  {| org_id := js "1";
     organisation_name := js "Tech Solutions Pte Ltd";
     acra_number_uen := Some (js "201234567H");
     annual_turnover := Some 5000000;
     number_of_employees := Some 150;
     date_of_self_assessment := Some (js "2024-01-15");
     scope_of_certification :=
       Some (js "IT services and software development");
     created_at := js "2024-01-01T00:00:00Z";
     updated_at := js "2024-01-15T10:30:00Z" |};
  {| org_id := js "2";
     organisation_name := js "Singapore Manufacturing Co.";
     acra_number_uen := Some (js "199876543B");
     annual_turnover := Some 12000000;
     number_of_employees := Some 350;
     date_of_self_assessment := Some (js "2024-02-20");
     scope_of_certification :=
       Some (js "Manufacturing operations and quality control systems");
     created_at := js "2023-12-10T09:15:00Z";
     updated_at := js "2024-02-20T14:20:00Z" |};
  {| org_id := js "3";
     organisation_name := js "Digital Marketing Hub";
     acra_number_uen := Some (js "202445678C");
     annual_turnover := Some 2500000;
     number_of_employees := Some 75;
     date_of_self_assessment := Some (js "2024-03-10");
     scope_of_certification :=
       Some (js "Digital marketing services and customer data management");
     created_at := js "2024-01-20T11:30:00Z";
     updated_at := js "2024-03-10T16:45:00Z" |};
  {| org_id := js "4";
     organisation_name := js "Healthcare Systems Ltd";
     acra_number_uen := Some (js "200567890D");
     annual_turnover := Some 8000000;
     number_of_employees := Some 200;
     date_of_self_assessment := Some (js "2024-01-30");
     scope_of_certification :=
       Some (js "Healthcare information systems and patient data management");
     created_at := js "2023-11-15T08:00:00Z";
     updated_at := js "2024-01-30T12:00:00Z" |};
  {| org_id := js "5";
     organisation_name := js "Small Business Consultancy";
     acra_number_uen := Some (js "202112345E");
     annual_turnover := Some 800000;
     number_of_employees := Some 25;
     date_of_self_assessment := Some (js "2024-02-28");
     scope_of_certification :=
       Some (js "Business consultancy and financial advisory services");
     created_at := js "2024-02-01T10:00:00Z";
     updated_at := js "2024-02-28T17:30:00Z" |}
].

(** Outcome of [await api.get(...)]: the promise resolves with a
    response carrying [data], or rejects (network or backend error). *)
Inductive Fetch (A : Type) :=
| Resolved (data : A)
| Rejected.
Arguments Resolved {A} data.
Arguments Rejected {A}.

(** [getAll]: the [try] block returns [response.data]; the [catch]
    block logs and returns the paginated mock data. *)
Definition getAll (response : Fetch (list Organization))
    (options : option Pagination.Options) : list Organization :=
  match response with
  | Resolved data => data
  | Rejected => Pagination.applyPagination MOCK_ORGANIZATIONS options
  end.

(** How an [async] function ends: it returns a value or throws an
    [Error] with a message. *)
Inductive Outcome (A : Type) :=
| Returned (value : A)
| Thrown (message : jsstring).
Arguments Returned {A} value.
Arguments Thrown {A} message.

(** [getById]: the backend's answer when there is one, else the mock
    organization with that id, else an error. *)
Definition getById (response : Fetch Organization) (id : jsstring)
  : Outcome Organization :=
  match response with
  | Resolved data => Returned data
  | Rejected =>
      match List.find (λ org, bool_decide (org_id org = id)) MOCK_ORGANIZATIONS with
      | Some organization => Returned organization
      | None => Thrown (js "Organization not found")
      end
  end.

(** [org.number_of_employees || 0] *)
Definition empCount (org : Organization) : Z :=
  match number_of_employees org with
  | Some n => if truthy_number n then n else 0
  | None => 0
  end.

Definition searchByEmployeeCount (response : Fetch (list Organization))
    (minEmployees maxEmployees : Z) : list Organization :=
  match response with
  | Resolved data => data
  | Rejected =>
      filter (λ org, Is_true ((empCount org >=? minEmployees)
                              && (empCount org <=? maxEmployees)))
             MOCK_ORGANIZATIONS
  end.

End OrganizationsApi.

(** ** Questions API mock data ([MOCK_QUESTIONS], imported from [./mocks]) *)

Module QuestionsApi.

Definition MOCK_QUESTIONS : list Question := [
  {| q_id := js "1";
     q_question := js "Who are your primary customers? Is it B2B or B2C? What are the services provided?";
     q_audience := [js "Owner"];
     q_cyberessentials_requirement := js "Understanding business context";
     q_group_tag := js "CONTEXT";
     q_provisions := [js "A.8.4(a)"] |};
  {| q_id := js "2";
     q_question := js "What is Operating System used for end user and application currently?";
     q_audience := [js "Owner"; js "IT"];
     q_cyberessentials_requirement := js "Asset inventory";
     q_group_tag := js "HW/SW INV";
     q_provisions := [js "A.8.4(a)"; js "A.8.4(b)"] |};
  {| q_id := js "3";
     q_question := js "Do you know whether the OS used is already end of support?";
     q_audience := [js "IT"];
     q_cyberessentials_requirement := js "Patch management";
     q_group_tag := js "PATCH/VULN";
     q_provisions := [js "A.8.4(b)"] |};
  {| q_id := js "4";
     q_question := js "Anyone looking at whether the used OS not more supported by vendor eg Microsoft?";
     q_audience := [js "IT"];
     q_cyberessentials_requirement := js "Vulnerability management";
     q_group_tag := js "PATCH/VULN";
     q_provisions := [js "A.8.4(b)"] |};
  {| q_id := js "5";
     q_question := js "Any asset inventory list? Both hardware and software. Who is managing it?";
     q_audience := [js "Owner"; js "IT"];
     q_cyberessentials_requirement := js "Asset management";
     q_group_tag := js "HW/SW INV";
     q_provisions := [js "A.8.4(a)"] |};
  {| q_id := js "6";
     q_question := js "Are there any machines running somewhere that you might not be aware? Who should be the one who gives the information?";
     q_audience := [js "IT"];
     q_cyberessentials_requirement := js "Asset discovery";
     q_group_tag := js "HW/SW INV";
     q_provisions := [js "A.8.4(a)"] |};
  {| q_id := js "7";
     q_question := js "Are there any security controls (i.e EDR) installed in machines?";
     q_audience := [js "Owner"; js "IT"];
     q_cyberessentials_requirement := js "Malware protection";
     q_group_tag := js "MALWARE";
     q_provisions := [js "A.8.4(b)"] |};
  {| q_id := js "8";
     q_question := js "Any VA scans conducted? Can share the frequency and remediations. Who is managing it?";
     q_audience := [js "IT"];
     q_cyberessentials_requirement := js "Vulnerability scanning";
     q_group_tag := js "PATCH/VULN";
     q_provisions := [js "A.8.4(b)"] |};
  {| q_id := js "9";
     q_question := js "Is there a business continuity plan in place?";
     q_audience := [js "Owner"];
     q_cyberessentials_requirement := js "Business continuity";
     q_group_tag := js "IR/BCP";
     q_provisions := [js "A.8.4(a)"; js "A.8.4(b)"] |};
  {| q_id := js "10";
     q_question := js "What are the company's critical functions?";
     q_audience := [js "Owner"; js "IT"];
     q_cyberessentials_requirement := js "Business impact analysis";
     q_group_tag := js "IR/BCP";
     q_provisions := [js "A.8.4(a)"] |}
].

(** [questionsApi.getAll] and [questionsApi.getById]: as for the
    organizations, with the mock questions as fallback. *)
Definition getAll (response : OrganizationsApi.Fetch (list Question))
    (options : option Pagination.Options) : list Question :=
  match response with
  | OrganizationsApi.Resolved data => data
  | OrganizationsApi.Rejected =>
      Pagination.applyPagination MOCK_QUESTIONS options
  end.

Definition getById (response : OrganizationsApi.Fetch Question)
    (id : jsstring) : OrganizationsApi.Outcome Question :=
  match response with
  | OrganizationsApi.Resolved data => OrganizationsApi.Returned data
  | OrganizationsApi.Rejected =>
      match List.find (λ q, bool_decide (q_id q = id)) MOCK_QUESTIONS with
      | Some question => OrganizationsApi.Returned question
      | None => OrganizationsApi.Thrown (js "Question not found")
      end
  end.

End QuestionsApi.

(** ** Companies API ([services/api/companies.ts]) *)

Module CompaniesApi.

(** [{ ...org, name, registrationDate, status: 'active' }] *)
Definition organizationToCompany (org : Organization) : Company :=
  {| organization := org;
     name := organisation_name org;
     registrationDate := created_at org;
     status := StatusActive;
     contactEmail := None;
     contactPerson := None |}.

(** [getById]: the organization as a company; when
    [organizationsApi.getById] throws, the company with that id among
    those kept under the [localStorage] key ['companies'] (here
    [stored], already parsed), or [null]. *)
Definition getById (response : OrganizationsApi.Fetch Organization)
    (stored : list Company) (id : jsstring) : option Company :=
  match OrganizationsApi.getById response id with
  | OrganizationsApi.Returned organization =>
      Some (organizationToCompany organization)
  | OrganizationsApi.Thrown _ =>
      List.find (λ c, bool_decide (org_id (organization c) = id)) stored
  end.

End CompaniesApi.

(** ** Provisions mock data ([services/api/mocks/provisions.ts]) *)

Module ProvisionsApi.

Definition MOCK_PROVISIONS : list Provision := [
  {| p_id := js "A.8.4(a)";
     p_section := js "A";
     p_subsection := js "8";
     p_clause := js "4";
     p_subclause := js "a";
     p_provision := js "The organisation shall identify business-critical systems and those containing essential business information and perform backup.";
     p_keywords :=
       Some [js "backup"; js "business-critical"; js "systems"; js "information"];
     p_questions := Some [js "1"; js "2"; js "5"; js "6"; js "9"; js "10"] |};
  {| p_id := js "A.8.4(b)";
     p_section := js "A";
     p_subsection := js "8";
     p_clause := js "4";
     p_subclause := js "b";
     p_provision := js "The backups shall be performed on a regular basis, with the backup frequency aligned to the business requirements and how many days' worth of data the organisation can afford to lose.";
     p_keywords :=
       Some [js "backup"; js "frequency"; js "business requirements";
             js "data retention"];
     p_questions := Some [js "2"; js "3"; js "4"; js "7"; js "8"; js "9"] |}
].

End ProvisionsApi.

(** ** Sample runs *)

Module Samples.
Import CompanyStore.

(** The first three mock questions (ids "1", "2", "3"). *)
Definition Q1 : Question := default inhabitant (QuestionsApi.MOCK_QUESTIONS !! 0%nat).
Definition Q2 : Question := default inhabitant (QuestionsApi.MOCK_QUESTIONS !! 1%nat).
Definition Q3 : Question := default inhabitant (QuestionsApi.MOCK_QUESTIONS !! 2%nat).

Definition say (questionId answer_ : string) : AnswerCall :=
  {| call_questionId := js questionId;
     call_answer := js answer_;
     call_files := None |}.

(** Two questions loaded and both answered. *)
Definition both_answered : CompanyState :=
  setAnswers [say "1" "yes"; say "2" " B2B "] (setQuestions [Q1; Q2] initial).

(** A question list of size two whose entries carry the same id, each
    answered. *)
Definition same_id_twice : CompanyState :=
  setAnswers [say "1" "yes"; say "1" "yes"] (setQuestions [Q1; Q1] initial).

(** Both questions answered, then another list loaded in which question
    "3" replaces "2", and a blank answer recorded for "3". *)
Definition list_replaced : CompanyState :=
  run initial
      [ SetQuestions [Q1; Q2];
        SetAnswer (js "1") (js "yes") None;
        SetAnswer (js "2") (js "yes") None;
        SetQuestions [Q1; Q3];
        SetAnswer (js "3") (js " ") None ].

(** An auditor session: a company selected, two questions loaded, the
    first evaluated pass and the second fail. *)
Definition verdict (questionId : string) (r : EvaluationResult) : Evaluation :=
  {| e_questionId := js questionId;
     e_answer := js "yes";
     result := r;
     reason := None;
     auditorNotes := None;
     evaluatedBy := Some (js "Current Auditor");
     evaluatedAt := Some (js "2024-03-10T16:45:00Z") |}.

Definition nothing_evaluated : AuditorStore.AuditorState :=
  AuditorStore.setQuestions [Q1; Q2] AuditorStore.initial.

Definition pass_and_fail : AuditorStore.AuditorState :=
  AuditorStore.setEvaluation (js "2") (verdict "2" Fail)
    (AuditorStore.setEvaluation (js "1") (verdict "1" Pass) nothing_evaluated).

(** A company under review: the first mock organization, two questions
    loaded, and its answers to both. *)
Definition sample_company : Company :=
  CompaniesApi.organizationToCompany
    (default
       {| org_id := []; organisation_name := []; acra_number_uen := None;
          annual_turnover := None; number_of_employees := None;
          date_of_self_assessment := None; scope_of_certification := None;
          created_at := []; updated_at := [] |}
       (OrganizationsApi.MOCK_ORGANIZATIONS !! 0%nat)).



(** Three evaluations recorded, one of them a pass. *)
Definition one_of_three : AuditorStore.AuditorState :=
  AuditorStore.setEvaluation (js "3") (verdict "3" Pending)
    (AuditorStore.setEvaluation (js "2") (verdict "2" Fail)
       (AuditorStore.setEvaluation (js "1") (verdict "1" Pass)
          (AuditorStore.setQuestions [Q1; Q2; Q3] AuditorStore.initial))).

(** A second company, and a store that lists both, has the first one
    selected and holds one passed and one failed provision evaluation. *)
Definition other_company : Company :=
  CompaniesApi.organizationToCompany
    (default (organization sample_company)
             (OrganizationsApi.MOCK_ORGANIZATIONS !! 1%nat)).

Definition judged (provisionIndex : nat) (r : OverallResult) (pct : Z)
  : ProvisionEvaluation :=
  let provision :=
    default {| p_id := []; p_section := []; p_subsection := [];
               p_clause := []; p_subclause := []; p_provision := [];
               p_keywords := None; p_questions := None |}
            (ProvisionsApi.MOCK_PROVISIONS !! provisionIndex) in
  {| pe_provisionId := p_id provision;
     pe_provision := provision;
     pe_questions := [];
     overallResult := r;
     pe_passPercentage := num pct |}.

Definition two_companies_scored : AuditorStore.AuditorState :=
  AuditorStore.setProvisionEvaluation (js "A.8.4(b)") (judged 1 OverallFail 0)
    (AuditorStore.setProvisionEvaluation (js "A.8.4(a)")
       (judged 0 OverallPass 100)
       (AuditorStore.setSelectedCompany (Some sample_company)
          (AuditorStore.setCompanies [sample_company; other_company]
             AuditorStore.initial))).

(** A run of store actions that ends with one non-blank and one blank
    answer on record. *)
Definition mixed_run : list CompanyStore.Action :=
  [ SetQuestions [Q1; Q2];
    SetAnswer (js "1") (js "yes") None;
    SetAnswer (js "2") (js " ") None;
    SubmitAnswers;
    SetAnswer (js "1") (js "B2B") None;
    SetCurrentQuestionIndex 1 ].

End Samples.

(** * Properties *)

(** ** Questionnaire store *)

Section CompanyStoreFacts.
Import CompanyStore Samples.

(** C8. [setQuestions qs] installs [qs] and puts the cursor on 0; the
    answers map, the completed-question set and the submitted flag (and
    the current company) are those of the prior state, so completion
    marks of ids absent from the new list are still there. *)
Theorem setQuestions_frame (qs : list Question) (st : CompanyState) :
  questions (setQuestions qs st) = qs
  ∧ currentQuestionIndex (setQuestions qs st) = 0
  ∧ answers (setQuestions qs st) = answers st
  ∧ completedQuestions (setQuestions qs st) = completedQuestions st
  ∧ isSubmitted (setQuestions qs st) = isSubmitted st
  ∧ currentCompany (setQuestions qs st) = currentCompany st
  ∧ ∀ questionId,
      isQuestionCompleted questionId (setQuestions qs st)
      = isQuestionCompleted questionId st.
Proof. repeat split. Qed.

Lemma array_get_in_range {A} (arr : list A) (i : Z) :
  0 ≤ i < array_length arr → is_Some (array_get arr i).
Proof.
  unfold array_get, array_length. intros [Hlo Hhi].
  destruct (Z.ltb_spec i 0) as [?|_]; [lia|].
  apply lookup_lt_is_Some. lia.
Qed.

Lemma array_get_out_of_range {A} (arr : list A) (i : Z) :
  ¬ (0 ≤ i < array_length arr) → array_get arr i = None.
Proof.
  unfold array_get, array_length. intros Hout.
  destruct (Z.ltb_spec i 0) as [?|?]; [done|].
  apply lookup_ge_None. lia.
Qed.

(** C10. [getCurrentQuestion] is defined on every state: with the
    cursor inside [0 .. length-1] it yields the question stored at that
    position, and otherwise (no questions, or cursor out of range) it
    yields [null]. *)
Theorem getCurrentQuestion_total (st : CompanyState) :
  (0 ≤ currentQuestionIndex st < array_length (questions st) →
     ∃ q, questions st !! Z.to_nat (currentQuestionIndex st) = Some q
          ∧ getCurrentQuestion st = Some q)
  ∧ (¬ (0 ≤ currentQuestionIndex st < array_length (questions st)) →
     getCurrentQuestion st = None).
Proof.
  unfold getCurrentQuestion. split.
  - intros Hin. destruct (array_get_in_range _ _ Hin) as [q Hq].
    exists q. rewrite Hq. split; [|done].
    unfold array_get in Hq.
    destruct (Z.ltb_spec (currentQuestionIndex st) 0); [lia|done].
  - intros Hout. by rewrite array_get_out_of_range.
Qed.

Lemma getCurrentQuestion_total_witness :
  (∃ q, questions both_answered !! 0%nat = Some q
        ∧ getCurrentQuestion both_answered = Some q)
  ∧ getCurrentQuestion (setCurrentQuestionIndex 2 both_answered) = None.
Proof.
  split.
  - apply (proj1 (getCurrentQuestion_total both_answered)).
    vm_compute. split; [discriminate|reflexivity].
  - apply (proj2 (getCurrentQuestion_total
                    (setCurrentQuestionIndex 2 both_answered))).
    vm_compute. intros [_ H]. discriminate H.
Defined.

(** C6 (as amended). Moving the cursor through the questionnaire
    page's [navigateToQuestion] with an index that is negative or not
    below the number of loaded questions leaves the store state as it
    was; the store's own [setCurrentQuestionIndex] performs no range
    check and stores whatever index it is given. *)
Theorem navigateToQuestion_out_of_range (index : Z) (st : CompanyState) :
  (index < 0 ∨ array_length (questions st) ≤ index →
   navigateToQuestion index st = st)
  ∧ currentQuestionIndex (setCurrentQuestionIndex index st) = index.
Proof.
  split; [|done].
  intros Hout. unfold navigateToQuestion.
  destruct (Z.geb_spec index 0), (Z.ltb_spec index (array_length (questions st)));
    simpl; try done; lia.
Qed.

Lemma navigateToQuestion_out_of_range_witness :
  navigateToQuestion 2 both_answered = both_answered.
Proof.
  apply (proj1 (navigateToQuestion_out_of_range 2 both_answered)).
  right. vm_compute. discriminate.
Defined.

(** C6, as stated for the store's cursor move, fails: with two
    questions loaded and the cursor on 0, [setCurrentQuestionIndex] moves
    the cursor to 7 and to -1. *)
Lemma setCurrentQuestionIndex_leaves_range :
  array_length (questions both_answered) = 2
  ∧ currentQuestionIndex both_answered = 0
  ∧ currentQuestionIndex (setCurrentQuestionIndex 7 both_answered) = 7
  ∧ currentQuestionIndex (setCurrentQuestionIndex (-1) both_answered) = -1
  ∧ setCurrentQuestionIndex 7 both_answered ≠ both_answered
  ∧ setCurrentQuestionIndex (-1) both_answered ≠ both_answered.
Proof.
  do 4 (split; [reflexivity|]).
  split; intros H; apply (f_equal currentQuestionIndex) in H; discriminate H.
Qed.

(** The guard is the page's: inside the range the cursor does move, and
    the store's own setter stores whatever index it is given. *)
Lemma navigateToQuestion_in_range (index : Z) (st : CompanyState) :
  0 ≤ index < array_length (questions st) →
  navigateToQuestion index st = setCurrentQuestionIndex index st.
Proof.
  intros [? ?]. unfold navigateToQuestion.
  destruct (Z.geb_spec index 0), (Z.ltb_spec index (array_length (questions st)));
    simpl; try done; lia.
Qed.

Lemma setCurrentQuestionIndex_stores (index : Z) (st : CompanyState) :
  currentQuestionIndex (setCurrentQuestionIndex index st) = index.
Proof. done. Qed.

(** *** Submission *)

Lemma dispatch_keeps_submitted (a : Action) (st : CompanyState) :
  is_reset a = false → isSubmitted st = true →
  isSubmitted (dispatch st a) = true.
Proof. destruct a; simpl; intros; done. Qed.

Lemma run_keeps_submitted (acts : list Action) (st : CompanyState) :
  Forall (λ a, is_reset a = false) acts →
  isSubmitted st = true → isSubmitted (run st acts) = true.
Proof.
  unfold run. intros Hacts. revert st.
  induction Hacts as [|a acts Ha _ IH]; intros st Hst; simpl; [done|].
  apply IH. by apply dispatch_keeps_submitted.
Qed.

(** C7 (as amended). Once [submitAnswers] has set the submitted flag, it
    stays set along every sequence of store actions in which
    [resetQuestionnaire] does not occur. *)
Theorem submitted_stable_without_reset
    (acts : list Action) (st : CompanyState) :
  Forall (λ a, is_reset a = false) acts →
  isSubmitted (run (submitAnswers st) acts) = true.
Proof. intros Hacts. by apply run_keeps_submitted. Qed.

Lemma submitted_stable_without_reset_witness :
  isSubmitted
    (run (submitAnswers both_answered)
         [SetAnswer (js "1") (js "") None; SetQuestions []; SetCurrentCompany None])
  = true.
Proof.
  apply submitted_stable_without_reset.
  repeat constructor.
Defined.

(** C7, as stated, fails: [resetQuestionnaire] is a store action and
    puts the flag back to [false]. *)
Lemma submit_then_reset_not_submitted :
  isSubmitted (submitAnswers initial) = true
  ∧ isSubmitted (run (submitAnswers initial) [ResetQuestionnaire]) = false.
Proof. split; reflexivity. Qed.

(** [resetQuestionnaire] is the action that clears the flag. *)
Lemma resetQuestionnaire_unsubmits (st : CompanyState) :
  isSubmitted (resetQuestionnaire st) = false.
Proof. done. Qed.

(** *** Answering *)

Lemma questions_setAnswer i t f (st : CompanyState) :
  questions (setAnswer i t f st) = questions st.
Proof. done. Qed.

Lemma questions_setAnswers (calls : list AnswerCall) (st : CompanyState) :
  questions (setAnswers calls st) = questions st.
Proof.
  unfold setAnswers. revert st.
  induction calls as [|c calls IH]; intros st; simpl; [done|].
  by rewrite IH.
Qed.

Lemma completed_setAnswer_nonempty i t f (st : CompanyState) :
  truthy_string (trim t) = true →
  completedQuestions (setAnswer i t f st) = {[i]} ∪ completedQuestions st.
Proof. intros Ht. unfold setAnswer; simpl. by rewrite Ht. Qed.

Lemma completed_setAnswer_empty i t f (st : CompanyState) :
  truthy_string (trim t) = false →
  completedQuestions (setAnswer i t f st) = completedQuestions st ∖ {[i]}.
Proof. intros Ht. unfold setAnswer; simpl. by rewrite Ht. Qed.

Lemma completed_setAnswers (calls : list AnswerCall) (st : CompanyState) :
  Forall (λ c, truthy_string (trim (call_answer c)) = true) calls →
  completedQuestions (setAnswers calls st)
  = list_to_set (call_questionId <$> calls) ∪ completedQuestions st.
Proof.
  unfold setAnswers. intros Hcalls. revert st.
  induction Hcalls as [|c calls Hc _ IH]; intros st; simpl.
  - set_solver.
  - rewrite IH, completed_setAnswer_nonempty by done. set_solver.
Qed.

Lemma num_eq_0 (z : Z) : num z = 0%Qc → z = 0.
Proof.
  unfold num. intros H.
  apply (f_equal this) in H. simpl in H.
  assert (Hq : (Qred (inject_Z z) == 0)%Q) by (rewrite H; reflexivity).
  rewrite Qred_correct in Hq. unfold Qeq in Hq. simpl in Hq. lia.
Qed.

Lemma percentage_full (n : Z) :
  n ≠ 0 → (num n / num n * num 100)%Qc = num 100.
Proof.
  intros Hn. assert (num n ≠ 0%Qc) by (intros H0; by apply num_eq_0 in H0).
  field. done.
Qed.

Lemma set_size_NoDup (l : list (list N)) :
  NoDup l → set_size (list_to_set l) = array_length l.
Proof.
  intros Hl. unfold set_size, array_length. by rewrite size_list_to_set.
Qed.

Lemma size_list_to_set_length (l : list (list N)) :
  (size (list_to_set l : gset (list N)) ≤ length l)%nat.
Proof.
  induction l as [|x l IH].
  { change (size (∅ : gset (list N)) ≤ 0)%nat. by rewrite size_empty. }
  simpl. destruct (decide (x ∈ l)) as [Hin|Hnin].
  - assert (({[x]} ∪ list_to_set l : gset (list N)) = list_to_set l) as ->
      by set_solver.
    lia.
  - rewrite size_union by set_solver. rewrite size_singleton. lia.
Qed.

Lemma set_size_dup (l : list (list N)) :
  ¬ NoDup l → set_size (list_to_set l) < array_length l.
Proof.
  unfold set_size, array_length. intros Hl.
  induction l as [|x l IH]; [destruct Hl; constructor|].
  simpl. destruct (decide (x ∈ l)) as [Hin|Hnin].
  - assert (({[x]} ∪ list_to_set l : gset (list N)) = list_to_set l) as ->
      by set_solver.
    pose proof (size_list_to_set_length l). lia.
  - rewrite size_union by set_solver. rewrite size_singleton.
    assert (¬ NoDup l) by (intros ?; apply Hl; by constructor).
    specialize (IH ltac:(done)). lia.
Qed.

(** C1 (as amended). Load a non-empty question list whose ids are
    pairwise distinct into a fresh store (no answers, nothing completed)
    and call [setAnswer] with text that is non-empty after trimming, for
    the ids of the list (in any order, possibly more than once): then
    [getProgress] is 100 and [canSubmit] holds. *)
Theorem answering_all_completes
    (qs : list Question) (calls : list AnswerCall) (st0 : CompanyState) :
  qs ≠ [] →
  NoDup (q_id <$> qs) →
  answers st0 = ∅ →
  completedQuestions st0 = ∅ →
  Forall (λ c, truthy_string (trim (call_answer c)) = true) calls →
  (∀ i, i ∈ call_questionId <$> calls ↔ i ∈ q_id <$> qs) →
  getProgress (setAnswers calls (setQuestions qs st0)) = num 100
  ∧ canSubmit (setAnswers calls (setQuestions qs st0)) = true.
Proof.
  intros Hne Hnd _ Hc0 Htexts Hids.
  assert (Hdone : completedQuestions (setAnswers calls (setQuestions qs st0))
                  = list_to_set (q_id <$> qs)).
  { rewrite completed_setAnswers by done. simpl. rewrite Hc0.
    apply set_eq. intros i. rewrite elem_of_union, !elem_of_list_to_set.
    rewrite Hids. set_solver. }
  assert (Hlen : array_length qs ≠ 0).
  { unfold array_length. destruct qs; [done|simpl; lia]. }
  assert (Hsz : set_size (list_to_set (q_id <$> qs)) = array_length qs).
  { rewrite set_size_NoDup by done. unfold array_length.
    by rewrite length_fmap. }
  unfold getProgress, canSubmit.
  rewrite Hdone, questions_setAnswers. simpl. rewrite Hsz.
  split.
  - destruct (Z.eqb_spec (array_length qs) 0); [done|].
    by apply percentage_full.
  - apply andb_true_intro. split; [|by apply Z.eqb_eq].
    apply Z.gtb_lt. unfold array_length in *. lia.
Qed.

Lemma answering_all_completes_witness :
  getProgress both_answered = num 100 ∧ canSubmit both_answered = true.
Proof.
  apply (answering_all_completes [Q1; Q2] [say "1" "yes"; say "2" " B2B "] initial).
  - discriminate.
  - apply (bool_decide_unpack (NoDup (q_id <$> [Q1; Q2]))). vm_compute. exact I.
  - reflexivity.
  - reflexivity.
  - repeat constructor.
  - intros i. reflexivity.
Defined.

(** With a repeated id the completed set stays smaller than the list,
    whatever is answered. *)
Lemma repeated_id_blocks_submit (qs : list Question) (st : CompanyState) :
  ¬ NoDup (q_id <$> qs) →
  completedQuestions st ⊆ list_to_set (q_id <$> qs) →
  canSubmit (setQuestions qs st) = false.
Proof.
  intros Hdup Hsub. unfold canSubmit. simpl.
  apply andb_false_iff. right. apply Z.eqb_neq.
  pose proof (set_size_dup _ Hdup) as Hlt.
  pose proof (subseteq_size _ _ Hsub) as Hle.
  unfold set_size, array_length in *. rewrite length_fmap in Hlt. lia.
Qed.

(** C1, as stated, fails on a question list of size 2 whose two entries
    have the same id: after [setAnswer] with non-empty text for each entry
    the completed set has one element, progress is 50 and [canSubmit] is
    [false]. *)
Lemma same_id_twice_not_complete :
  array_length (questions same_id_twice) = 2
  ∧ getProgress same_id_twice = num 50
  ∧ getProgress same_id_twice ≠ num 100
  ∧ canSubmit same_id_twice = false.
Proof.
  split; [reflexivity|]. split; [|split].
  - apply Qc_is_canon. vm_compute. reflexivity.
  - intros H. apply (f_equal this) in H. vm_compute in H. discriminate H.
  - vm_compute. reflexivity.
Qed.

(** C2 (as amended). [setAnswer] with text that is empty after trimming
    takes the id out of the completed set, and with text that is non-empty
    after trimming puts it in; and when [canSubmit] held and the id was in
    the completed set, it no longer holds after the id's answer is
    overwritten with such empty text. *)
Theorem setAnswer_marks_and_demotes
    (questionId text : jsstring) (fs : option (list File))
    (st : CompanyState) :
  (truthy_string (trim text) = false →
     completedQuestions (setAnswer questionId text fs st)
     = completedQuestions st ∖ {[questionId]}
     ∧ isQuestionCompleted questionId (setAnswer questionId text fs st) = false)
  ∧ (truthy_string (trim text) = true →
     completedQuestions (setAnswer questionId text fs st)
     = {[questionId]} ∪ completedQuestions st
     ∧ isQuestionCompleted questionId (setAnswer questionId text fs st) = true)
  ∧ (truthy_string (trim text) = false →
     canSubmit st = true →
     questionId ∈ completedQuestions st →
     canSubmit (setAnswer questionId text fs st) = false).
Proof.
  unfold isQuestionCompleted. split; [|split].
  - intros Ht. rewrite completed_setAnswer_empty by done.
    split; [done|]. apply bool_decide_eq_false. set_solver.
  - intros Ht. rewrite completed_setAnswer_nonempty by done.
    split; [done|]. apply bool_decide_eq_true. set_solver.
  - intros Ht Hcan Hin. unfold canSubmit in *.
    rewrite completed_setAnswer_empty, questions_setAnswer by done.
    apply andb_true_iff in Hcan as [_ Hsz]. apply Z.eqb_eq in Hsz.
    apply andb_false_iff. right. apply Z.eqb_neq.
    unfold set_size in *.
    assert (size (completedQuestions st)
            = size (completedQuestions st ∖ {[questionId]}) + 1)%nat.
    { rewrite (union_difference_L {[questionId]} (completedQuestions st))
        at 1 by set_solver.
      rewrite size_union by set_solver. rewrite size_singleton. lia. }
    lia.
Qed.

Lemma setAnswer_marks_and_demotes_witness :
  isQuestionCompleted (js "1") (setAnswer (js "1") (js "  ") None both_answered)
  = false
  ∧ isQuestionCompleted (js "3") (setAnswer (js "3") (js "no") None both_answered)
    = true
  ∧ canSubmit (setAnswer (js "1") (js "") None both_answered) = false.
Proof.
  split; [|split].
  - apply (proj1 (setAnswer_marks_and_demotes
                    (js "1") (js "  ") None both_answered)).
    reflexivity.
  - apply (proj1 (proj2 (setAnswer_marks_and_demotes
                           (js "3") (js "no") None both_answered))).
    reflexivity.
  - apply (proj2 (proj2 (setAnswer_marks_and_demotes
                           (js "1") (js "") None both_answered))).
    + reflexivity.
    + vm_compute. reflexivity.
    + apply (bool_decide_unpack (js "1" ∈ completedQuestions both_answered)).
      vm_compute. exact I.
Defined.

(** C2, as stated for every state, fails in its last part: in
    [list_replaced] the completed set is {"1", "2"} and the list is
    ["1", "3"], so [canSubmit] holds; overwriting the (blank) answer of
    "3" with the empty string removes nothing from the completed set and
    [canSubmit] still holds. *)
Lemma overwrite_with_empty_keeps_canSubmit :
  canSubmit list_replaced = true
  ∧ (∃ e, answers list_replaced !! js "3" = Some e)
  ∧ trim (js "") = []
  ∧ canSubmit (setAnswer (js "3") (js "") None list_replaced) = true.
Proof.
  split; [vm_compute; reflexivity|]. split; [|split].
  - eexists. vm_compute. reflexivity.
  - reflexivity.
  - vm_compute. reflexivity.
Qed.

End CompanyStoreFacts.

(** ** Auditor store *)

Section AuditorStoreFacts.
Import AuditorStore Samples.

(** C3. Whatever the auditor store held, after [setSelectedCompany] the
    evaluations map and the provision-evaluations map are empty and the
    current provision id is [null]: no question id and no provision id
    has an entry left, and the evaluated count of the page is 0. *)
Theorem setSelectedCompany_clears
    (company : option Company) (st : AuditorState) :
  selectedCompany (setSelectedCompany company st) = company
  ∧ evaluations (setSelectedCompany company st) = ∅
  ∧ provisionEvaluations (setSelectedCompany company st) = ∅
  ∧ currentProvisionId (setSelectedCompany company st) = None
  ∧ (∀ questionId,
       evaluations (setSelectedCompany company st) !! questionId = None)
  ∧ (∀ provisionId,
       provisionEvaluations (setSelectedCompany company st) !! provisionId
       = None)
  ∧ evaluated (getEvaluationStats (setSelectedCompany company st)) = 0.
Proof. repeat split. Qed.

(** *** Counting entries *)

Lemma object_keys_length {V} (o : gmap (list N) V) :
  array_length (object_keys o) = Z.of_nat (size o).
Proof.
  unfold array_length, object_keys.
  by rewrite length_fmap, length_map_to_list.
Qed.

Lemma object_values_insert {V} (o : gmap (list N) V) (k : list N) (v : V) :
  o !! k = None → object_values (<[k := v]> o) ≡ₚ v :: object_values o.
Proof.
  intros Hk. unfold object_values.
  by rewrite map_to_list_insert by done.
Qed.

Lemma object_values_count {V} (P : V → Prop) `{!∀ v, Decision (P v)}
    (o : gmap (list N) V) :
  length (filter P (object_values o))
  = size (filter (λ kv : list N * V, P kv.2) o).
Proof.
  induction o as [|k v o Hk IH] using map_ind.
  - unfold object_values. rewrite map_to_list_empty, map_filter_empty.
    by rewrite map_size_empty.
  - rewrite object_values_insert by done.
    destruct (decide (P v)) as [HP|HP].
    + rewrite filter_cons_True by done.
      rewrite map_filter_insert_True by done.
      rewrite map_size_insert_None by (by apply map_lookup_filter_None_2; left).
      simpl. by rewrite IH.
    + rewrite filter_cons_False by done.
      rewrite map_filter_insert_not' by (simpl; intros; first [done|congruence]).
      done.
Qed.

Lemma evaluated_nonneg (st : AuditorState) :
  0 ≤ evaluated (getEvaluationStats st).
Proof. simpl. unfold array_length. lia. Qed.

(** In exact rationals: [passPercentage] is 0 when the evaluated count
    is 0, it is passed / evaluated * 100 when the evaluated count is
    positive (one of the two always applies), and it does not depend on
    the question list. *)
Theorem passPercentage_over_evaluated (st : AuditorState) :
  (evaluated (getEvaluationStats st) = 0 →
     passPercentage (getEvaluationStats st) = 0%Qc)
  ∧ (0 < evaluated (getEvaluationStats st) →
     passPercentage (getEvaluationStats st)
     = (num (passed (getEvaluationStats st))
        / num (evaluated (getEvaluationStats st)) * num 100)%Qc)
  ∧ (evaluated (getEvaluationStats st) = 0
     ∨ 0 < evaluated (getEvaluationStats st))
  ∧ (∀ qs, passPercentage (getEvaluationStats (setQuestions qs st))
           = passPercentage (getEvaluationStats st)).
Proof.
  split; [|split; [|split]].
  - simpl. intros ->. done.
  - simpl. intros Hpos.
    destruct (Z.gtb_spec (array_length (object_keys (evaluations st))) 0);
      [done|lia].
  - pose proof (evaluated_nonneg st). lia.
  - done.
Qed.

Lemma passPercentage_over_evaluated_witness :
  passPercentage (getEvaluationStats nothing_evaluated) = 0%Qc
  ∧ passPercentage (getEvaluationStats pass_and_fail)
    = (num (passed (getEvaluationStats pass_and_fail))
       / num (evaluated (getEvaluationStats pass_and_fail)) * num 100)%Qc.
Proof.
  split.
  - apply (proj1 (passPercentage_over_evaluated nothing_evaluated)).
    vm_compute. reflexivity.
  - apply (proj1 (proj2 (passPercentage_over_evaluated pass_and_fail))).
    vm_compute. reflexivity.
Defined.

Lemma half_is_fifty : (num 1 / num 2 * num 100)%Qc = num 50.
Proof. apply Qc_is_canon. vm_compute. reflexivity. Qed.

Lemma all_is_hundred : (num 2 / num 2 * num 100)%Qc = num 100.
Proof. apply Qc_is_canon. vm_compute. reflexivity. Qed.

(** C5. [getEvaluationStats] counts: total is the number of questions,
    evaluated the number of entries of the evaluations map, passed and
    failed the number of entries whose result is pass, respectively fail,
    and pending is total - evaluated. With two questions of different ids,
    the first evaluated pass and the second fail, the stats are total 2,
    evaluated 2, passed 1, failed 1, pending 0, passPercentage 50
    (and completionPercentage 100). *)
Theorem getEvaluationStats_counts (st : AuditorState) :
  total (getEvaluationStats st) = Z.of_nat (length (questions st))
  ∧ evaluated (getEvaluationStats st) = Z.of_nat (size (evaluations st))
  ∧ passed (getEvaluationStats st)
    = Z.of_nat (size (filter (λ kv : list N * Evaluation, result kv.2 = Pass)
                             (evaluations st)))
  ∧ failed (getEvaluationStats st)
    = Z.of_nat (size (filter (λ kv : list N * Evaluation, result kv.2 = Fail)
                             (evaluations st)))
  ∧ pending (getEvaluationStats st)
    = total (getEvaluationStats st) - evaluated (getEvaluationStats st)
  ∧ ∀ (company : option Company) (q1 q2 : Question) (e1 e2 : Evaluation),
      q_id q1 ≠ q_id q2 → result e1 = Pass → result e2 = Fail →
      getEvaluationStats
        (setEvaluation (q_id q2) e2
           (setEvaluation (q_id q1) e1
              (setQuestions [q1; q2] (setSelectedCompany company st))))
      = {| total := 2; evaluated := 2; passed := 1; failed := 1;
           pending := 0; completionPercentage := num 100;
           passPercentage := num 50 |}.
Proof.
  split; [done|]. split; [apply object_keys_length|].
  split; [simpl; unfold array_length; by rewrite object_values_count|].
  split; [simpl; unfold array_length; by rewrite object_values_count|].
  split; [done|].
  intros company q1 q2 e1 e2 Hne H1 H2.
  unfold getEvaluationStats. simpl.
  rewrite object_keys_length. unfold array_length.
  rewrite !object_values_count.
  assert (He : (∅ : gmap (list N) Evaluation) !! q_id q1 = None)
    by apply lookup_empty.
  assert (Hq2 : (<[q_id q1:=e1]> ∅ : gmap (list N) Evaluation) !! q_id q2 = None)
    by (by rewrite lookup_insert_ne).
  rewrite !map_size_insert_None, map_size_empty by done.
  rewrite (map_filter_insert_not' (λ kv : list N * Evaluation, result kv.2 = Pass))
    by (simpl; intros; congruence).
  rewrite (map_filter_insert_True (λ kv : list N * Evaluation, result kv.2 = Pass))
    by done.
  rewrite (map_filter_insert_True (λ kv : list N * Evaluation, result kv.2 = Fail))
    by done.
  rewrite (map_filter_insert_not' (λ kv : list N * Evaluation, result kv.2 = Fail))
    by (simpl; intros; congruence).
  rewrite !map_filter_empty.
  rewrite (map_size_insert_None (q_id q2)) by done.
  rewrite !map_size_insert_None, map_size_empty by done.
  simpl. change (Z.of_nat 2) with 2. change (Z.of_nat 1) with 1.
  rewrite half_is_fifty, all_is_hundred. done.
Qed.

Lemma getEvaluationStats_counts_witness :
  getEvaluationStats pass_and_fail
  = {| total := 2; evaluated := 2; passed := 1; failed := 1;
       pending := 0; completionPercentage := num 100;
       passPercentage := num 50 |}.
Proof.
  apply (proj2 (proj2 (proj2 (proj2 (proj2
           (getEvaluationStats_counts initial))))) None Q1 Q2
           (verdict "1" Pass) (verdict "2" Fail)).
  - vm_compute. discriminate.
  - reflexivity.
  - reflexivity.
Defined.

End AuditorStoreFacts.

(** ** The pass percentage as the program computes it *)

Section Binary64Facts.
Import Binary64.

(** *** Rounding never produces NaN *)

Lemma shr_1_nonneg mrs : 0 ≤ shr_m mrs → 0 ≤ shr_m (shr_1 mrs).
Proof. destruct mrs as [[|[p|p|]|[p|p|]] r s]; simpl; lia. Qed.

Lemma iter_pos_invariant {A} (P : A → Prop) (f : A → A) :
  (∀ x, P x → P (f x)) → ∀ p x, P x → P (iter_pos f p x).
Proof.
  intros Hf. induction p as [p IH|p IH|]; intros x Hx; simpl; auto.
Qed.

Lemma shr_nonneg mrs e n : 0 ≤ shr_m mrs → 0 ≤ shr_m (shr mrs e n).1.
Proof.
  intros Hm. destruct n as [|p|p]; simpl; try done.
  by apply (iter_pos_invariant (λ r, 0 ≤ shr_m r)); [apply shr_1_nonneg|].
Qed.

Lemma shr_fexp_nonneg m e l :
  0 ≤ m → 0 ≤ shr_m (shr_fexp prec emax m e l).1.
Proof.
  intros Hm. unfold shr_fexp. apply shr_nonneg.
  destruct l as [|[]]; simpl; done.
Qed.

Lemma round_nearest_even_nonneg m l : 0 ≤ m → 0 ≤ round_nearest_even m l.
Proof.
  intros Hm. destruct l as [|[]]; simpl; try lia.
  destruct (Z.even m); lia.
Qed.

Lemma binary_round_aux_not_nan sx mx ex lx :
  0 ≤ mx → is_nan (binary_round_aux prec emax sx mx ex lx) = false.
Proof.
  intros Hm. unfold binary_round_aux.
  pose proof (shr_fexp_nonneg mx ex lx Hm) as H1.
  destruct (shr_fexp prec emax mx ex lx) as [mrs' e'] eqn:E1. simpl in H1.
  pose proof (shr_fexp_nonneg
                (round_nearest_even (shr_m mrs') (loc_of_shr_record mrs'))
                e' loc_Exact (round_nearest_even_nonneg _ _ H1)) as H2.
  destruct (shr_fexp prec emax _ e' loc_Exact) as [mrs'' e''] eqn:E2.
  simpl in H2.
  destruct (shr_m mrs'') as [|m|m]; [done| |lia].
  by destruct (e'' <=? emax - prec).
Qed.

(** *** Counts are finite doubles *)

Lemma digits2_pos_iter_xO (m k : positive) :
  digits2_pos (Pos.iter xO m k) = (digits2_pos m + k)%positive.
Proof.
  induction k as [|k IH] using Pos.peano_ind.
  - simpl. lia.
  - rewrite Pos.iter_succ. simpl. rewrite IH. lia.
Qed.

Lemma digits2_pos_size (m : positive) : digits2_pos m = Pos.size m.
Proof. induction m as [m IH|m IH|]; simpl; by rewrite ?IH. Qed.

Lemma digits2_pos_bound (m : positive) :
  Z.pos m < 2 ^ 53 → Z.pos (digits2_pos m) ≤ 53.
Proof.
  intros Hm. rewrite digits2_pos_size.
  pose proof (Pos.size_le m) as Hle.
  apply Pos2Z.pos_le_pos in Hle. rewrite Pos2Z.inj_pow in Hle.
  change (Z.pos m~0) with (2 * Z.pos m) in Hle.
  assert (Hlt : 2 ^ Z.pos (Pos.size m) < 2 ^ 54).
  { change (2 ^ 54) with (2 * 2 ^ 53). lia. }
  apply Z.pow_lt_mono_r_iff in Hlt; lia.
Qed.

(** An integer between 1 and 2^53 - 1 is a finite, non-zero double. *)
Lemma of_int_finite (n : Z) :
  0 < n < 2 ^ 53 → ∃ m e, of_int n = S754_finite false m e.
Proof.
  intros [Hpos Hlt]. destruct n as [|p|p]; try lia.
  pose proof (digits2_pos_bound p Hlt) as Hd.
  unfold of_int, binary_normalize, binary_round.
  set (d := digits2_pos p) in *.
  assert (Hfexp : fexp prec emax (Z.pos d + 0) = Z.pos d - 53).
  { unfold fexp, SpecFloat.emin, prec, emax. lia. }
  rewrite Hfexp.
  assert (Hal : ∃ mz, shl_align p 0 (Z.pos d - 53) = (mz, Z.pos d - 53)
                      ∧ Z.pos (digits2_pos mz) = 53).
  { unfold shl_align. rewrite Z.sub_0_r.
    destruct (Z.pos d - 53) as [|k|k] eqn:Hk; try lia.
    - exists p. split; [done|]. fold d. lia.
    - exists (Pos.iter xO p k). split; [done|].
      rewrite digits2_pos_iter_xO. fold d. lia. }
  destruct Hal as (mz & -> & Hmz).
  set (ez := Z.pos d - 53) in *.
  assert (Hshr : ∀ m', Z.pos (digits2_pos m') = 53 →
            shr_fexp prec emax (Z.pos m') ez loc_Exact
            = ({| shr_m := Z.pos m'; shr_r := false; shr_s := false |}, ez)).
  { intros m' Hm'. unfold shr_fexp. simpl Zdigits2. rewrite Hm'.
    replace (fexp prec emax (53 + ez) - ez) with 0
      by (unfold fexp, SpecFloat.emin, prec, emax; lia).
    done. }
  unfold binary_round_aux. rewrite (Hshr mz Hmz). simpl.
  rewrite (Hshr mz Hmz). simpl.
  replace (ez <=? emax - prec) with true
    by (symmetry; apply Z.leb_le; unfold emax, prec; lia).
  by exists mz, ez.
Qed.

Lemma div_eucl_quotient_nonneg (a : Z) (b : positive) :
  0 ≤ a → 0 ≤ (Z.div_eucl a (Z.pos b)).1.
Proof.
  intros Ha. change ((Z.div_eucl a (Z.pos b)).1) with (a / Z.pos b).
  apply Z.div_pos; lia.
Qed.

(** *** Division and multiplication *)

Lemma div_finite_not_nan sx mx ex sy my ey :
  is_nan (div (S754_finite sx mx ex) (S754_finite sy my ey)) = false.
Proof.
  unfold div, SFdiv, SFdiv_core_binary.
  set (m' := match _ - _ - _ with Z.pos _ => _ | Z0 => _ | Z.neg _ => _ end).
  assert (Hm' : 0 ≤ m').
  { unfold m'. destruct (_ - _ - _) as [|s|s]; try lia.
    apply Z.shiftl_nonneg. lia. }
  pose proof (div_eucl_quotient_nonneg m' my Hm') as Hq.
  destruct (Z.div_eucl m' (Z.pos my)) as [q r]. simpl in Hq.
  by apply binary_round_aux_not_nan.
Qed.

Lemma mul_finite_not_nan (x : spec_float) sy my ey :
  is_nan x = false → is_nan (mul x (S754_finite sy my ey)) = false.
Proof.
  intros Hx. destruct x as [sx|sx| |sx mx ex]; try done.
  unfold mul, SFmul. by apply binary_round_aux_not_nan.
Qed.

(** [a / b * 100] on counts, with [b] positive, is not NaN. *)
Lemma percentage_not_nan (a b : Z) :
  0 ≤ a < 2 ^ 53 → 0 < b < 2 ^ 53 →
  is_nan (mul (div (of_int a) (of_int b)) (of_int 100)) = false.
Proof.
  intros Ha Hb.
  destruct (of_int_finite b Hb) as (mb & eb & ->).
  destruct (of_int_finite 100) as (mh & eh & ->); [by vm_compute|].
  apply mul_finite_not_nan.
  destruct (Z.eq_dec a 0) as [->|Hne].
  - done.
  - destruct (of_int_finite a) as (ma & ea & ->); [lia|].
    apply div_finite_not_nan.
Qed.

(** Without a guard the quotient of two zero counts is NaN. *)
Lemma zero_by_zero_is_nan : div (of_int 0) (of_int 0) = S754_nan.
Proof. done. Qed.

(** *** The statistics *)

Lemma binary64_counts (st : AuditorStore.AuditorState) :
  EvaluationPage.total (EvaluationPage.getEvaluationStats st)
  = AuditorStore.total (AuditorStore.getEvaluationStats st)
  ∧ EvaluationPage.evaluated (EvaluationPage.getEvaluationStats st)
    = AuditorStore.evaluated (AuditorStore.getEvaluationStats st)
  ∧ EvaluationPage.passed (EvaluationPage.getEvaluationStats st)
    = AuditorStore.passed (AuditorStore.getEvaluationStats st)
  ∧ EvaluationPage.failed (EvaluationPage.getEvaluationStats st)
    = AuditorStore.failed (AuditorStore.getEvaluationStats st)
  ∧ EvaluationPage.pending (EvaluationPage.getEvaluationStats st)
    = AuditorStore.pending (AuditorStore.getEvaluationStats st).
Proof. done. Qed.

(** C4. In [getEvaluationStats], [passPercentage] is computed over the
    evaluated questions: the evaluated count is the number of entries of
    the evaluations map and the passed count the number of entries whose
    result is pass; when the evaluated count is 0 the percentage is
    exactly 0; when it is positive the percentage is the binary64
    quotient passed / evaluated times 100; it is never NaN (for any map
    of fewer than 2^53 entries); and it does not depend on how many
    questions are loaded. *)
Theorem passPercentage_binary64 (st : AuditorStore.AuditorState) :
  EvaluationPage.evaluated (EvaluationPage.getEvaluationStats st)
  = Z.of_nat (size (AuditorStore.evaluations st))
  ∧ EvaluationPage.passed (EvaluationPage.getEvaluationStats st)
    = Z.of_nat (size (filter (λ kv : list N * Evaluation, result kv.2 = Pass)
                             (AuditorStore.evaluations st)))
  ∧ (EvaluationPage.evaluated (EvaluationPage.getEvaluationStats st) = 0 →
     EvaluationPage.passPercentage (EvaluationPage.getEvaluationStats st)
     = S754_zero false)
  ∧ (0 < EvaluationPage.evaluated (EvaluationPage.getEvaluationStats st) →
     EvaluationPage.passPercentage (EvaluationPage.getEvaluationStats st)
     = mul (div (of_int (EvaluationPage.passed
                           (EvaluationPage.getEvaluationStats st)))
                (of_int (EvaluationPage.evaluated
                           (EvaluationPage.getEvaluationStats st))))
           (of_int 100))
  ∧ (Z.of_nat (size (AuditorStore.evaluations st)) < 2 ^ 53 →
     is_nan (EvaluationPage.passPercentage
               (EvaluationPage.getEvaluationStats st)) = false)
  ∧ (∀ qs,
       EvaluationPage.passPercentage
         (EvaluationPage.getEvaluationStats (AuditorStore.setQuestions qs st))
       = EvaluationPage.passPercentage (EvaluationPage.getEvaluationStats st)).
Proof.
  assert (Hev : array_length (object_keys (AuditorStore.evaluations st))
                = Z.of_nat (size (AuditorStore.evaluations st)))
    by apply object_keys_length.
  assert (Hpass :
    array_length (filter (λ e, result e = Pass)
                    (object_values (AuditorStore.evaluations st)))
    = Z.of_nat (size (filter (λ kv : list N * Evaluation, result kv.2 = Pass)
                             (AuditorStore.evaluations st)))).
  { unfold array_length. by rewrite object_values_count. }
  split; [exact Hev|]. split; [exact Hpass|].
  split; [|split; [|split]].
  - simpl. intros ->. done.
  - simpl. intros Hpos.
    destruct (Z.gtb_spec
                (array_length (object_keys (AuditorStore.evaluations st))) 0);
      [done|lia].
  - intros Hsmall. simpl. rewrite Hev, Hpass.
    destruct (Z.gtb_spec (Z.of_nat (size (AuditorStore.evaluations st))) 0)
      as [Hpos|_]; [|done].
    apply percentage_not_nan; [|lia].
    pose proof (map_size_filter
                  (λ kv : list N * Evaluation, result kv.2 = Pass)
                  (AuditorStore.evaluations st)).
    lia.
  - done.
Qed.

Lemma passPercentage_binary64_witness :
  EvaluationPage.passPercentage
    (EvaluationPage.getEvaluationStats Samples.nothing_evaluated)
  = S754_zero false
  ∧ EvaluationPage.passPercentage
      (EvaluationPage.getEvaluationStats Samples.one_of_three)
    = mul (div (of_int (EvaluationPage.passed
                          (EvaluationPage.getEvaluationStats
                             Samples.one_of_three)))
               (of_int (EvaluationPage.evaluated
                          (EvaluationPage.getEvaluationStats
                             Samples.one_of_three))))
          (of_int 100)
  ∧ is_nan (EvaluationPage.passPercentage
              (EvaluationPage.getEvaluationStats Samples.one_of_three))
    = false.
Proof.
  split; [|split].
  - apply (proj1 (proj2 (proj2
             (passPercentage_binary64 Samples.nothing_evaluated)))).
    vm_compute. reflexivity.
  - apply (proj1 (proj2 (proj2 (proj2
             (passPercentage_binary64 Samples.one_of_three))))).
    vm_compute. reflexivity.
  - apply (proj1 (proj2 (proj2 (proj2 (proj2
             (passPercentage_binary64 Samples.one_of_three)))))).
    vm_compute. reflexivity.
Defined.

(** The values on the samples: one pass and one fail give 50; one pass
    out of three gives 33.33333333333333, the double
    4691249611844266 * 2^-47, not the rational 100/3. *)
Lemma passPercentage_binary64_samples :
  EvaluationPage.passPercentage
    (EvaluationPage.getEvaluationStats Samples.pass_and_fail)
  = of_int 50
  ∧ EvaluationPage.passPercentage
      (EvaluationPage.getEvaluationStats Samples.one_of_three)
    = S754_finite false 4691249611844266 (-47).
Proof. split; vm_compute; reflexivity. Qed.

End Binary64Facts.

(** ** Pagination and the organizations fallback *)

Section PaginationFacts.
Import Pagination OrganizationsApi.

Lemma slice_from {A} (arr : list A) (o : nat) :
  (o ≤ length arr)%nat → slice arr (Z.of_nat o) None = drop o arr.
Proof.
  intros Ho. unfold slice, relative_index, array_length. simpl.
  destruct (Z.ltb_spec (Z.of_nat o) 0) as [?|_]; [lia|].
  rewrite Z.min_l by lia. rewrite Nat2Z.id.
  apply take_ge. rewrite length_drop. lia.
Qed.

Lemma slice_to {A} (arr : list A) (l : nat) :
  slice arr 0 (Some (Z.of_nat l)) = take l arr.
Proof.
  unfold slice, relative_index, array_length. simpl.
  destruct (Z.ltb_spec (Z.of_nat l) 0) as [?|_]; [lia|].
  rewrite (Z.min_l 0) by lia. change (Z.to_nat 0) with 0%nat.
  rewrite drop_0, Z.sub_0_r.
  destruct (Z.min_spec (Z.of_nat l) (Z.of_nat (length arr))) as [[? ->]|[? ->]].
  - by rewrite Nat2Z.id.
  - rewrite Nat2Z.id. rewrite !take_ge by lia. done.
Qed.

Lemma truthy_number_of_nat (n : nat) :
  truthy_number (Z.of_nat n) = bool_decide (n ≠ 0%nat).
Proof.
  unfold truthy_number. destruct n; [done|].
  symmetry. rewrite bool_decide_eq_true_2 by done.
  destruct (Z.eqb_spec (Z.of_nat (S n)) 0); [lia|done].
Qed.

Lemma applyPagination_no_options {A} (items : list A) :
  applyPagination items None = items.
Proof. done. Qed.

(** Offset below the length, limit non-zero: drop, then take. *)
Lemma applyPagination_in_range {A} (items : list A) (lim off : option nat) :
  (∀ o, off = Some o → (o < length items)%nat) →
  (∀ l, lim = Some l → (0 < l)%nat) →
  applyPagination items (Some (options_of lim off))
  = paginate_spec items lim off.
Proof.
  intros Hoff Hlim. unfold applyPagination, paginate_spec, options_of. simpl.
  destruct off as [o|]; simpl.
  - specialize (Hoff o eq_refl).
    assert (Hskip :
      (if truthy_number (Z.of_nat o) && (Z.of_nat o <? array_length items)
       then slice items (Z.of_nat o) None else items) = drop o items).
    { rewrite truthy_number_of_nat. destruct o as [|o]; [done|].
      rewrite bool_decide_eq_true_2 by done. simpl andb.
      unfold array_length.
      destruct (Z.ltb_spec (Z.of_nat (S o)) (Z.of_nat (length items))); [|lia].
      apply slice_from. lia. }
    rewrite Hskip. destruct lim as [l|]; simpl; [|done].
    specialize (Hlim l eq_refl). rewrite truthy_number_of_nat.
    rewrite bool_decide_eq_true_2 by lia. apply slice_to.
  - destruct lim as [l|]; simpl; [|done].
    specialize (Hlim l eq_refl). rewrite truthy_number_of_nat.
    rewrite bool_decide_eq_true_2 by lia. apply slice_to.
Qed.

(** An offset that is not below the length is skipped by the guard. *)
Lemma applyPagination_offset_beyond {A} (items : list A)
    (lim : option nat) (o : nat) :
  (length items ≤ o)%nat →
  applyPagination items (Some (options_of lim (Some o)))
  = applyPagination items (Some (options_of lim None)).
Proof.
  intros Ho.
  assert (Hguard :
    truthy_number (Z.of_nat o) && (Z.of_nat o <? array_length items) = false).
  { apply andb_false_iff. right. apply Z.ltb_ge. unfold array_length. lia. }
  unfold applyPagination, options_of. simpl. by rewrite Hguard.
Qed.

(** A limit of 0 is falsy and cuts nothing. *)
Lemma applyPagination_limit_zero {A} (items : list A) (off : option nat) :
  applyPagination items (Some (options_of (Some 0%nat) off))
  = applyPagination items (Some (options_of None off)).
Proof. done. Qed.

(** C9 (as amended). When the fetch is rejected, [getAll] answers from
    the mock organizations (five entries). For non-negative integer
    [limit] and [offset]: with the offset absent or below 5 and the limit
    absent or non-zero, the result is the mock list with the offset applied
    first and then the limit; an offset of 5 or more is left unapplied, and
    so is a limit of 0; without options the whole mock list is returned. *)
Theorem getAll_fallback_paginated (lim off : option nat) :
  ((∀ o, off = Some o → (o < 5)%nat) →
   (∀ l, lim = Some l → (0 < l)%nat) →
   getAll Rejected (Some (options_of lim off))
   = paginate_spec MOCK_ORGANIZATIONS lim off)
  ∧ (∀ o, (5 ≤ o)%nat →
       getAll Rejected (Some (options_of lim (Some o)))
       = getAll Rejected (Some (options_of lim None)))
  ∧ getAll Rejected (Some (options_of (Some 0%nat) off))
    = getAll Rejected (Some (options_of None off))
  ∧ getAll Rejected None = MOCK_ORGANIZATIONS.
Proof.
  split; [|split; [|split]].
  - intros Hoff Hlim. simpl. by apply applyPagination_in_range.
  - intros o Ho. simpl. by apply applyPagination_offset_beyond.
  - done.
  - done.
Qed.

Lemma getAll_fallback_paginated_witness :
  getAll Rejected (Some (options_of (Some 2%nat) (Some 1%nat)))
  = paginate_spec MOCK_ORGANIZATIONS (Some 2%nat) (Some 1%nat)
  ∧ getAll Rejected (Some (options_of (Some 2%nat) (Some 7%nat)))
    = getAll Rejected (Some (options_of (Some 2%nat) None)).
Proof.
  split.
  - apply (proj1 (getAll_fallback_paginated (Some 2%nat) (Some 1%nat))).
    + intros o [= <-]. lia.
    + intros l [= <-]. lia.
  - apply (proj1 (proj2 (getAll_fallback_paginated (Some 2%nat) None)) 7%nat).
    lia.
Defined.

(** C9, as stated for every limit and offset, fails: with [offset] 5 the
    specification's reading skips all five organizations, and [getAll]
    returns all five; with [limit] 0 the reading keeps none, and [getAll]
    returns all five. *)
Lemma getAll_offset_past_end_returns_all :
  getAll Rejected (Some {| limit := None; offset := Some 5 |})
  = MOCK_ORGANIZATIONS
  ∧ paginate_spec MOCK_ORGANIZATIONS None (Some 5%nat) = []
  ∧ getAll Rejected (Some {| limit := None; offset := Some 5 |})
    ≠ paginate_spec MOCK_ORGANIZATIONS None (Some 5%nat)
  ∧ getAll Rejected (Some {| limit := Some 0; offset := None |})
    = MOCK_ORGANIZATIONS
  ∧ paginate_spec MOCK_ORGANIZATIONS (Some 0%nat) None = [].
Proof.
  split; [reflexivity|]. split; [reflexivity|].
  split; [|split; reflexivity].
  intros H. apply (f_equal length) in H. vm_compute in H. discriminate H.
Qed.

End PaginationFacts.

(** * Further properties *)

(** ** Percentages *)

Lemma percentage_formula (a b : Z) :
  0 < b → (num a / num b * num 100)%Qc = Q2Qc (100 * a # Z.to_pos b).
Proof.
  intros Hb. unfold num, Qcdiv, Qcmult, Qcinv. apply Q2Qc_eq_iff. simpl.
  rewrite !Qred_correct.
  destruct b as [|p|p]; try lia. simpl.
  unfold Qeq, Qmult, Qinv, inject_Z. simpl. lia.
Qed.

Lemma percentage_nonneg (a b : Z) :
  0 ≤ a → 0 < b → (0 ≤ num a / num b * num 100)%Qc.
Proof.
  intros Ha Hb. rewrite percentage_formula by done.
  unfold Qcle. simpl. rewrite !Qred_correct. unfold Qle. simpl. lia.
Qed.

Lemma percentage_le_100 (a b : Z) :
  a ≤ b → 0 < b → (num a / num b * num 100 ≤ num 100)%Qc.
Proof.
  intros Ha Hb. rewrite percentage_formula by done.
  unfold Qcle, num. simpl. rewrite !Qred_correct. unfold Qle. simpl.
  rewrite Z2Pos.id by done. lia.
Qed.

Lemma percentage_eq_100 (a b : Z) :
  0 < b → (num a / num b * num 100)%Qc = num 100 ↔ a = b.
Proof.
  intros Hb. rewrite percentage_formula by done. unfold num.
  rewrite Q2Qc_eq_iff. unfold Qeq. simpl. rewrite Z2Pos.id by done. lia.
Qed.

Lemma num_0_le_100 : (0 ≤ num 100)%Qc.
Proof. unfold Qcle. simpl. unfold Qle. simpl. lia. Qed.

Lemma num_0_ne_100 : (0%Qc : Qc) ≠ num 100.
Proof. intros H. apply (f_equal this) in H. discriminate H. Qed.

(** Equalities between sets of ids built from union, difference and
    singletons, decided element by element. *)
Ltac id_sets :=
  let x := fresh "x" in
  apply set_eq; intros x;
  repeat first [ rewrite elem_of_union | rewrite elem_of_difference
               | rewrite elem_of_singleton ];
  repeat match goal with
         | i : list N |- _ =>
             lazymatch i with
             | x => fail
             | _ =>
                 lazymatch goal with
                 | H : x = i |- _ => fail
                 | H : x ≠ i |- _ => fail
                 | _ => destruct (decide (x = i))
                 end
             end
         end;
  naive_solver.

(** ** Questionnaire store: answers, completion, progress *)

Section CompanyStoreMore.
Import CompanyStore Samples.

(** X1. Reading back after [setAnswer]: the id maps to the given text,
    with the given files or the empty list when none are passed; every
    other id keeps its entry and its completion mark; the question list,
    the cursor, the submitted flag and the company are untouched. *)
Theorem setAnswer_read_back
    (questionId text : jsstring) (fs : option (list File))
    (st : CompanyState) :
  answers (setAnswer questionId text fs st) !! questionId
  = Some {| answer := text; files := default [] fs |}
  ∧ (∀ other, other ≠ questionId →
       answers (setAnswer questionId text fs st) !! other
       = answers st !! other
       ∧ isQuestionCompleted other (setAnswer questionId text fs st)
         = isQuestionCompleted other st)
  ∧ questions (setAnswer questionId text fs st) = questions st
  ∧ currentQuestionIndex (setAnswer questionId text fs st)
    = currentQuestionIndex st
  ∧ isSubmitted (setAnswer questionId text fs st) = isSubmitted st
  ∧ currentCompany (setAnswer questionId text fs st) = currentCompany st.
Proof.
  split; [apply lookup_insert_eq|]. split; [|done].
  intros other Hne. split.
  - simpl. by rewrite lookup_insert_ne.
  - unfold isQuestionCompleted, setAnswer. simpl.
    destruct (truthy_string (trim text)); apply bool_decide_ext; set_solver.
Qed.

Lemma setAnswer_read_back_witness :
  answers (setAnswer (js "2") (js "no") None both_answered) !! js "1"
  = answers both_answered !! js "1"
  ∧ isQuestionCompleted (js "1") (setAnswer (js "2") (js "no") None both_answered)
    = isQuestionCompleted (js "1") both_answered.
Proof.
  apply (proj1 (proj2 (setAnswer_read_back (js "2") (js "no") None
                         both_answered)) (js "1")).
  vm_compute. discriminate.
Defined.

(** X2. The last write wins: a second [setAnswer] for the same id makes
    the first one unobservable, in the answers map and in the completed
    set alike. *)
Theorem setAnswer_last_write_wins
    (questionId text1 text2 : jsstring) (fs1 fs2 : option (list File))
    (st : CompanyState) :
  setAnswer questionId text2 fs2 (setAnswer questionId text1 fs1 st)
  = setAnswer questionId text2 fs2 st.
Proof.
  unfold setAnswer. simpl.
  destruct (truthy_string (trim text1)), (truthy_string (trim text2));
    f_equal; first [apply insert_insert_eq | id_sets].
Qed.

(** X3. Answers to different questions do not interfere: two [setAnswer]
    calls on different ids give the same state in either order. *)
Theorem setAnswer_commute
    (id1 id2 text1 text2 : jsstring) (fs1 fs2 : option (list File))
    (st : CompanyState) :
  id1 ≠ id2 →
  setAnswer id1 text1 fs1 (setAnswer id2 text2 fs2 st)
  = setAnswer id2 text2 fs2 (setAnswer id1 text1 fs1 st).
Proof.
  intros Hne. unfold setAnswer. simpl.
  destruct (truthy_string (trim text1)), (truthy_string (trim text2));
    f_equal; first [by apply insert_insert_ne | id_sets].
Qed.

Lemma setAnswer_commute_witness :
  setAnswer (js "1") (js "yes") None (setAnswer (js "2") (js "") None initial)
  = setAnswer (js "2") (js "") None (setAnswer (js "1") (js "yes") None initial).
Proof. apply setAnswer_commute. vm_compute. discriminate. Defined.

(** X4. A completion mark set by hand does not outlive the next
    answer: after [markQuestionCompleted], a [setAnswer] for the same id
    leaves exactly the state it would have left without the mark; and a
    mark placed after a non-blank answer changes nothing. *)
Theorem setAnswer_overrides_mark
    (questionId text : jsstring) (fs : option (list File))
    (st : CompanyState) :
  setAnswer questionId text fs (markQuestionCompleted questionId st)
  = setAnswer questionId text fs st
  ∧ (truthy_string (trim text) = true →
     markQuestionCompleted questionId (setAnswer questionId text fs st)
     = setAnswer questionId text fs st).
Proof.
  unfold setAnswer, markQuestionCompleted. simpl.
  destruct (truthy_string (trim text)); (split; [|intros ?]);
    f_equal; first [done | id_sets].
Qed.

Lemma setAnswer_overrides_mark_witness :
  markQuestionCompleted (js "1") (setAnswer (js "1") (js "yes") None initial)
  = setAnswer (js "1") (js "yes") None initial.
Proof.
  apply (proj2 (setAnswer_overrides_mark (js "1") (js "yes") None initial)).
  reflexivity.
Defined.

(** *** Completion follows the answers *)

Lemma completion_tracks_answers_setAnswer i t f (st : CompanyState) :
  completion_tracks_answers st →
  completion_tracks_answers (setAnswer i t f st).
Proof.
  intros Hinv j. unfold setAnswer; simpl.
  destruct (decide (j = i)) as [->|Hne].
  - rewrite lookup_insert_eq.
    destruct (truthy_string (trim t)) eqn:Ht.
    + split; [|set_solver]. intros _. eexists. split; [done|]. done.
    + split; [set_solver|]. intros (e & [= <-] & He). simpl in He. congruence.
  - rewrite lookup_insert_ne by done. rewrite <- (Hinv j).
    destruct (truthy_string (trim t)); set_solver.
Qed.

Lemma completion_tracks_answers_dispatch (a : Action) (st : CompanyState) :
  is_mark a = false →
  completion_tracks_answers st →
  completion_tracks_answers (dispatch st a).
Proof.
  destruct a; simpl; intros Hmark Hinv; try done.
  - by apply completion_tracks_answers_setAnswer.
  - intros j. simpl. rewrite lookup_empty. split; [set_solver|].
    intros (e & He & _). done.
Qed.

(** X5. As long as [markQuestionCompleted] is not used, the completed
    set is exactly the set of ids whose recorded answer is non-empty after
    trimming: this holds in the initial state and is kept by every other
    store action, so it holds after any run of them. *)
Theorem completion_tracks_answers_run (acts : list Action) :
  Forall (λ a, is_mark a = false) acts →
  completion_tracks_answers (run initial acts).
Proof.
  assert (Hgen : ∀ st, Forall (λ a, is_mark a = false) acts →
                       completion_tracks_answers st →
                       completion_tracks_answers (run st acts)).
  { unfold run. induction acts as [|a acts IH]; intros st Hacts Hst; [done|].
    apply Forall_cons in Hacts as [Ha Hacts]. simpl.
    apply IH; [done|]. by apply completion_tracks_answers_dispatch. }
  intros Hacts. apply Hgen; [done|].
  intros j. simpl. rewrite lookup_empty. split; [set_solver|].
  intros (e & He & _). done.
Qed.

Lemma completion_tracks_answers_run_witness :
  completion_tracks_answers (run initial mixed_run).
Proof. apply completion_tracks_answers_run. repeat constructor. Defined.

(** The state that run ends in: both questions have an answer on
    record, and only the one with the non-blank answer is completed. *)
Lemma mixed_run_state :
  answer <$> answers (run initial mixed_run) !! js "1" = Some (js "B2B")
  ∧ answer <$> answers (run initial mixed_run) !! js "2" = Some (js " ")
  ∧ completedQuestions (run initial mixed_run) = {[ js "1" ]}.
Proof. repeat split; vm_compute; reflexivity. Qed.

(** *** Progress *)

Lemma set_size_nonneg (s : gset (list N)) : 0 ≤ set_size s.
Proof. unfold set_size. lia. Qed.

Lemma array_length_nonneg {A} (l : list A) : 0 ≤ array_length l.
Proof. unfold array_length. lia. Qed.

(** X6. Submission is allowed exactly when progress reads 100: in every
    state [canSubmit] is [true] if and only if [getProgress] is 100 (with
    no questions loaded, progress is 0 and [canSubmit] is [false]). *)
Theorem canSubmit_iff_progress_100 (st : CompanyState) :
  canSubmit st = true ↔ getProgress st = num 100.
Proof.
  unfold canSubmit, getProgress.
  pose proof (array_length_nonneg (questions st)) as Hlen.
  destruct (Z.eqb_spec (array_length (questions st)) 0) as [H0|Hn0].
  - rewrite H0. simpl. split; [done|]. intros H. by apply num_0_ne_100 in H.
  - rewrite percentage_eq_100 by lia.
    rewrite andb_true_iff, Z.eqb_eq. split; [by intros [_ ?]|].
    intros Heq. split; [|done]. apply Z.gtb_lt. lia.
Qed.

Lemma canSubmit_iff_progress_100_witness :
  getProgress both_answered = num 100.
Proof.
  apply (proj1 (canSubmit_iff_progress_100 both_answered)).
  vm_compute. reflexivity.
Defined.

(** X7. Progress is never negative; it stays at or below 100 whenever the
    completed set has no more elements than there are questions, which is
    the case when every completed id is the id of a loaded question; and
    it is 0 when no question is loaded. *)
Theorem getProgress_bounds (st : CompanyState) :
  (0 ≤ getProgress st)%Qc
  ∧ (completedQuestions st ⊆ list_to_set (q_id <$> questions st) →
     (getProgress st ≤ num 100)%Qc)
  ∧ (questions st = [] → getProgress st = 0%Qc).
Proof.
  unfold getProgress.
  pose proof (array_length_nonneg (questions st)) as Hlen.
  pose proof (set_size_nonneg (completedQuestions st)) as Hsz.
  split; [|split].
  - destruct (Z.eqb_spec (array_length (questions st)) 0);
      [apply Qcle_refl|]. apply percentage_nonneg; lia.
  - intros Hsub.
    destruct (Z.eqb_spec (array_length (questions st)) 0);
      [apply num_0_le_100|].
    apply percentage_le_100; [|lia].
    pose proof (subseteq_size _ _ Hsub) as Hle.
    pose proof (size_list_to_set_length (q_id <$> questions st)) as Hle'.
    rewrite length_fmap in Hle'. unfold set_size, array_length. lia.
  - intros ->. done.
Qed.

Lemma getProgress_bounds_witness :
  (getProgress both_answered ≤ num 100)%Qc
  ∧ getProgress (setAnswer (js "1") (js "yes") None initial) = 0%Qc.
Proof.
  split.
  - apply (proj1 (proj2 (getProgress_bounds both_answered))).
    apply (bool_decide_unpack
             (completedQuestions both_answered
              ⊆ list_to_set (q_id <$> questions both_answered))).
    vm_compute. exact I.
  - apply (proj2 (proj2 (getProgress_bounds
                           (setAnswer (js "1") (js "yes") None initial)))).
    reflexivity.
Defined.

(** X8. [resetQuestionnaire] empties the answers and the completed set,
    puts the cursor on 0 and clears the submitted flag, while the loaded
    questions and the current company stay; afterwards progress is 0 and
    submission is not allowed, whatever the state was. *)
Theorem resetQuestionnaire_effect (st : CompanyState) :
  answers (resetQuestionnaire st) = ∅
  ∧ completedQuestions (resetQuestionnaire st) = ∅
  ∧ currentQuestionIndex (resetQuestionnaire st) = 0
  ∧ questions (resetQuestionnaire st) = questions st
  ∧ currentCompany (resetQuestionnaire st) = currentCompany st
  ∧ getProgress (resetQuestionnaire st) = 0%Qc
  ∧ canSubmit (resetQuestionnaire st) = false.
Proof.
  do 5 (split; [done|]).
  assert (Hp : getProgress (resetQuestionnaire st) = 0%Qc).
  { unfold getProgress. simpl.
    destruct (Z.eqb_spec (array_length (questions st)) 0); [done|].
    change (set_size ∅) with 0.
    pose proof (array_length_nonneg (questions st)).
    rewrite percentage_formula by lia. apply Q2Qc_eq_iff.
    unfold Qeq. simpl. lia. }
  split; [done|].
  unfold canSubmit. simpl. change (set_size ∅) with 0.
  destruct (Z.gtb_spec (array_length (questions st)) 0) as [Hpos|Hle];
    [|done].
  destruct (array_length (questions st)); simpl; [lia|done|done].
Qed.

(** *** The guarded handlers of the questionnaire page *)

Lemma cursor_in_list_get (st : CompanyState) :
  cursor_in_list st →
  (getCurrentQuestion st = None ↔ questions st = []).
Proof.
  intros [Hlo Hhi]. unfold getCurrentQuestion. split.
  - intros Hnone. destruct Hhi as [Hlt|[_ ?]]; [|done].
    destruct (array_get_in_range (questions st) (currentQuestionIndex st))
      as [q Hq]; [lia|]. by rewrite Hq in Hnone.
  - intros Hnil. rewrite array_get_out_of_range; [done|].
    rewrite Hnil. unfold array_length. simpl. lia.
Qed.

Lemma cursor_in_list_zero (qs : list Question) (st : CompanyState) :
  questions st = qs → currentQuestionIndex st = 0 → cursor_in_list st.
Proof.
  intros Hqs Hidx. unfold cursor_in_list. rewrite Hidx, Hqs.
  split; [done|]. destruct qs; [by right|left].
  unfold array_length. simpl. lia.
Qed.

Lemma cursor_in_list_step (st : CompanyState) (ev : Event) :
  sets_cursor_directly ev = false →
  cursor_in_list st → cursor_in_list (step st ev).
Proof.
  intros Hev Hinv. destruct ev as [a|i|]; simpl.
  - destruct a; simpl in *; try done.
    + by eapply cursor_in_list_zero.
    + by eapply cursor_in_list_zero.
  - unfold navigateToQuestion.
    destruct (Z.geb_spec i 0), (Z.ltb_spec i (array_length (questions st)));
      simpl; try done.
    unfold cursor_in_list. simpl. split; [lia|by left].
  - unfold handleSubmit. by destruct (canSubmit st).
Qed.

(** X9. As long as [setCurrentQuestionIndex] is not called directly,
    the cursor being moved only through the page's [navigateToQuestion]
    (with any index), every store action and the page's [handleSubmit]
    keep a cursor that points into the question list (or rests on 0 of an
    empty list) that way; hence [getCurrentQuestion] returns [null] only
    when the loaded list is empty. *)
Theorem guarded_moves_keep_cursor_in_list
    (evs : list Event) (st : CompanyState) :
  cursor_in_list st →
  Forall (λ ev, sets_cursor_directly ev = false) evs →
  cursor_in_list (steps st evs)
  ∧ (getCurrentQuestion (steps st evs) = None
     ↔ questions (steps st evs) = []).
Proof.
  intros Hst Hevs.
  assert (Hrun : cursor_in_list (steps st evs)).
  { unfold steps. revert st Hst.
    induction Hevs as [|ev evs Hev _ IH]; intros st Hst; simpl; [done|].
    apply IH. by apply cursor_in_list_step. }
  split; [done|]. by apply cursor_in_list_get.
Qed.

Lemma guarded_moves_keep_cursor_in_list_witness :
  cursor_in_list
    (steps initial
       [Store (SetQuestions [Q1; Q2]); NavigateToQuestion 2;
        NavigateToQuestion (-1); NavigateToQuestion 1;
        Store (SetAnswer (js "2") (js "yes") None); HandleSubmit])
  ∧ (getCurrentQuestion
       (steps initial
          [Store (SetQuestions [Q1; Q2]); NavigateToQuestion 2;
           NavigateToQuestion (-1); NavigateToQuestion 1;
           Store (SetAnswer (js "2") (js "yes") None); HandleSubmit]) = None
     ↔ questions
         (steps initial
            [Store (SetQuestions [Q1; Q2]); NavigateToQuestion 2;
             NavigateToQuestion (-1); NavigateToQuestion 1;
             Store (SetAnswer (js "2") (js "yes") None); HandleSubmit]) = []).
Proof.
  apply guarded_moves_keep_cursor_in_list.
  - split; [done|]. right. done.
  - repeat constructor.
Defined.

(** In that run the cursor ends on the second question. *)
Lemma guarded_moves_sample_state :
  currentQuestionIndex
    (steps initial
       [Store (SetQuestions [Q1; Q2]); NavigateToQuestion 2;
        NavigateToQuestion (-1); NavigateToQuestion 1;
        Store (SetAnswer (js "2") (js "yes") None); HandleSubmit]) = 1
  ∧ getCurrentQuestion
      (steps initial
         [Store (SetQuestions [Q1; Q2]); NavigateToQuestion 2;
          NavigateToQuestion (-1); NavigateToQuestion 1;
          Store (SetAnswer (js "2") (js "yes") None); HandleSubmit]) = Some Q2.
Proof. split; vm_compute; reflexivity. Qed.

Lemma isSubmitted_step (st : CompanyState) (ev : Event) :
  submits_directly ev = false →
  isSubmitted st = false →
  isSubmitted (step st ev) = true →
  ev = HandleSubmit ∧ canSubmit st = true.
Proof.
  intros Hev Hno Hyes. destruct ev as [a|i|]; simpl in Hyes.
  - destruct a; simpl in *; congruence.
  - unfold navigateToQuestion in Hyes.
    destruct ((i >=? 0) && (i <? array_length (questions st)));
      simpl in Hyes; congruence.
  - unfold handleSubmit in Hyes.
    destruct (canSubmit st); simpl in Hyes; [done|congruence].
Qed.

(** X10. As long as [submitAnswers] is not called directly, the
    submitted flag can only be set by the page's [handleSubmit], and only
    at a moment when [canSubmit] holds: if the flag is clear before a run
    of store actions and guarded handlers and set after it, the run
    contains a [handleSubmit] before which [canSubmit] was [true]. *)
Theorem submitted_only_when_complete
    (evs : list Event) (st : CompanyState) :
  Forall (λ ev, submits_directly ev = false) evs →
  isSubmitted st = false →
  isSubmitted (steps st evs) = true →
  ∃ before after,
    evs = before ++ HandleSubmit :: after
    ∧ canSubmit (steps st before) = true.
Proof.
  unfold steps. intros Hevs. revert st.
  induction Hevs as [|ev evs Hev _ IH]; intros st Hno Hyes; simpl in Hyes.
  - congruence.
  - destruct (isSubmitted (step st ev)) eqn:Hstep.
    + destruct (isSubmitted_step st ev Hev Hno Hstep) as [-> Hcan].
      by exists [], evs.
    + destruct (IH _ Hstep Hyes) as (before & after & -> & Hcan).
      by exists (ev :: before), after.
Qed.

Lemma submitted_only_when_complete_witness :
  ∃ before after,
    [Store (SetQuestions [Q1; Q2]); Store (SetAnswer (js "1") (js "yes") None);
     HandleSubmit; Store (SetAnswer (js "2") (js "no") None); HandleSubmit;
     NavigateToQuestion 0]
    = before ++ HandleSubmit :: after
    ∧ canSubmit (steps initial before) = true.
Proof.
  apply submitted_only_when_complete.
  - repeat constructor.
  - reflexivity.
  - vm_compute. reflexivity.
Defined.

(** In that run the first [handleSubmit] comes too early and leaves
    the flag clear; the second one sets it. *)
Lemma submitted_sample_states :
  isSubmitted
    (steps initial
       [Store (SetQuestions [Q1; Q2]);
        Store (SetAnswer (js "1") (js "yes") None); HandleSubmit]) = false
  ∧ isSubmitted
      (steps initial
         [Store (SetQuestions [Q1; Q2]);
          Store (SetAnswer (js "1") (js "yes") None); HandleSubmit;
          Store (SetAnswer (js "2") (js "no") None); HandleSubmit]) = true.
Proof. split; vm_compute; reflexivity. Qed.

End CompanyStoreMore.

(** ** Auditor store: recording evaluations, statistics, reports *)

Section AuditorStoreMore.
Import AuditorStore Samples.

Lemma object_values_length {V} (o : gmap (list N) V) :
  array_length (object_values o) = Z.of_nat (size o).
Proof.
  unfold array_length, object_values.
  by rewrite length_fmap, length_map_to_list.
Qed.

Lemma elem_of_object_values {V} (o : gmap (list N) V) (v : V) :
  v ∈ object_values o ↔ ∃ k, o !! k = Some v.
Proof.
  unfold object_values. rewrite list_elem_of_fmap. split.
  - intros ([k v'] & -> & Hin). exists k. by apply elem_of_map_to_list.
  - intros [k Hk]. exists (k, v). split; [done|]. by apply elem_of_map_to_list.
Qed.

(** X11. Recording an evaluation: the id then maps to the given
    evaluation and every other id keeps its entry. For an id not yet
    evaluated the evaluated count goes up by one and the pending count
    down by one; for an id already evaluated both counts stay (the entry
    is overwritten). The total never changes. *)
Theorem setEvaluation_effect
    (questionId : jsstring) (e : Evaluation) (st : AuditorState) :
  evaluations (setEvaluation questionId e st) !! questionId = Some e
  ∧ (∀ other, other ≠ questionId →
       evaluations (setEvaluation questionId e st) !! other
       = evaluations st !! other)
  ∧ total (getEvaluationStats (setEvaluation questionId e st))
    = total (getEvaluationStats st)
  ∧ (evaluations st !! questionId = None →
       evaluated (getEvaluationStats (setEvaluation questionId e st))
       = evaluated (getEvaluationStats st) + 1
       ∧ pending (getEvaluationStats (setEvaluation questionId e st))
         = pending (getEvaluationStats st) - 1)
  ∧ (is_Some (evaluations st !! questionId) →
       evaluated (getEvaluationStats (setEvaluation questionId e st))
       = evaluated (getEvaluationStats st)
       ∧ pending (getEvaluationStats (setEvaluation questionId e st))
         = pending (getEvaluationStats st)).
Proof.
  split; [apply lookup_insert_eq|].
  split; [intros other Hne; simpl; by rewrite lookup_insert_ne|].
  split; [done|]. simpl. rewrite !object_keys_length. split.
  - intros Hnew. rewrite map_size_insert_None by done. lia.
  - intros [e' He']. rewrite map_size_insert_Some by done. lia.
Qed.

Lemma setEvaluation_effect_witness :
  (evaluated (getEvaluationStats
                (setEvaluation (js "1") (verdict "1" Pass) nothing_evaluated))
   = evaluated (getEvaluationStats nothing_evaluated) + 1
   ∧ pending (getEvaluationStats
                (setEvaluation (js "1") (verdict "1" Pass) nothing_evaluated))
     = pending (getEvaluationStats nothing_evaluated) - 1)
  ∧ (evaluated (getEvaluationStats
                  (setEvaluation (js "1") (verdict "1" Fail) pass_and_fail))
     = evaluated (getEvaluationStats pass_and_fail)
     ∧ pending (getEvaluationStats
                  (setEvaluation (js "1") (verdict "1" Fail) pass_and_fail))
       = pending (getEvaluationStats pass_and_fail)).
Proof.
  split.
  - apply (proj1 (proj2 (proj2 (proj2
             (setEvaluation_effect (js "1") (verdict "1" Pass)
                nothing_evaluated))))).
    reflexivity.
  - apply (proj2 (proj2 (proj2 (proj2
             (setEvaluation_effect (js "1") (verdict "1" Fail)
                pass_and_fail))))).
    eexists. vm_compute. reflexivity.
Defined.

(** *** Pass, fail and pending results *)

Lemma results_partition (l : list Evaluation) :
  (length (filter (λ e, result e = Pass) l)
   + length (filter (λ e, result e = Fail) l)
   + length (filter (λ e, result e = Pending) l)
   = length l)%nat.
Proof.
  induction l as [|e l IH]; [done|].
  rewrite !filter_cons. destruct (result e) eqn:Hr;
    repeat case_decide; try congruence; simpl; lia.
Qed.

Lemma no_pending_results (l : list Evaluation) :
  length (filter (λ e, result e = Pending) l) = 0%nat
  ↔ ∀ e, e ∈ l → result e ≠ Pending.
Proof.
  split.
  - intros Hlen e Hin Hpend.
    assert (e ∈ filter (λ e, result e = Pending) l) as Hf
      by (by apply list_elem_of_filter).
    destruct (filter (λ e, result e = Pending) l); [|done].
    by apply not_elem_of_nil in Hf.
  - intros Hall. induction l as [|e l IH]; [done|].
    rewrite filter_cons_False by (apply Hall; left).
    apply IH. intros e' He'. apply Hall. by right.
Qed.

(** X12. In the statistics of the evaluation page, passed plus failed
    never exceeds evaluated, and the two are equal exactly when no
    recorded evaluation has the result pending. *)
Theorem passed_failed_evaluated (st : AuditorState) :
  0 ≤ passed (getEvaluationStats st)
  ∧ 0 ≤ failed (getEvaluationStats st)
  ∧ passed (getEvaluationStats st) + failed (getEvaluationStats st)
    ≤ evaluated (getEvaluationStats st)
  ∧ (passed (getEvaluationStats st) + failed (getEvaluationStats st)
     = evaluated (getEvaluationStats st)
     ↔ ∀ questionId e,
         evaluations st !! questionId = Some e → result e ≠ Pending).
Proof.
  simpl.
  pose proof (results_partition (object_values (evaluations st))) as Hpart.
  pose proof (object_values_length (evaluations st)) as Hlen.
  rewrite object_keys_length. unfold array_length in *.
  split; [lia|]. split; [lia|]. split; [lia|].
  transitivity
    (length (filter (λ e, result e = Pending) (object_values (evaluations st)))
     = 0%nat); [lia|].
  rewrite no_pending_results. split.
  - intros Hall k e Hk. apply Hall. apply elem_of_object_values. by exists k.
  - intros Hall e [k Hk]%elem_of_object_values. by apply (Hall k).
Qed.

Lemma passed_failed_evaluated_witness :
  passed (getEvaluationStats pass_and_fail)
  + failed (getEvaluationStats pass_and_fail)
  = evaluated (getEvaluationStats pass_and_fail).
Proof.
  apply (proj2 (proj2 (proj2 (proj2 (passed_failed_evaluated pass_and_fail))))).
  intros k e Hk. unfold pass_and_fail in Hk. simpl in Hk.
  apply lookup_insert_Some in Hk as [[_ <-]|[_ Hk]]; [done|].
  apply lookup_insert_Some in Hk as [[_ <-]|[_ Hk]]; [done|].
  by rewrite lookup_empty in Hk.
Defined.

(** X13. The pass percentage always lies between 0 and 100; the
    completion percentage is never negative, and is at most 100 when no
    more evaluations are recorded than there are questions. *)
Theorem percentages_bounded (st : AuditorState) :
  (0 ≤ passPercentage (getEvaluationStats st))%Qc
  ∧ (passPercentage (getEvaluationStats st) ≤ num 100)%Qc
  ∧ (0 ≤ completionPercentage (getEvaluationStats st))%Qc
  ∧ (evaluated (getEvaluationStats st) ≤ total (getEvaluationStats st) →
     (completionPercentage (getEvaluationStats st) ≤ num 100)%Qc).
Proof.
  pose proof (results_partition (object_values (evaluations st))) as Hpart.
  pose proof (object_values_length (evaluations st)) as Hlen.
  simpl. rewrite !object_keys_length. unfold array_length in *.
  split; [|split; [|split]].
  - destruct (Z.gtb_spec (Z.of_nat (size (evaluations st))) 0);
      [|apply Qcle_refl]. apply percentage_nonneg; lia.
  - destruct (Z.gtb_spec (Z.of_nat (size (evaluations st))) 0);
      [|apply num_0_le_100]. apply percentage_le_100; lia.
  - destruct (Z.gtb_spec (Z.of_nat (length (questions st))) 0);
      [|apply Qcle_refl]. apply percentage_nonneg; lia.
  - intros Hle.
    destruct (Z.gtb_spec (Z.of_nat (length (questions st))) 0);
      [|apply num_0_le_100]. apply percentage_le_100; lia.
Qed.

Lemma percentages_bounded_witness :
  (completionPercentage (getEvaluationStats pass_and_fail) ≤ num 100)%Qc.
Proof.
  apply (proj2 (proj2 (proj2 (percentages_bounded pass_and_fail)))).
  vm_compute. discriminate.
Defined.

(** *** Lookups by key *)

Lemma find_by_key {A} (key : A → list N) (k : list N) (l : list A) (x : A) :
  List.find (λ y, bool_decide (key y = k)) l = Some x → x ∈ l ∧ key x = k.
Proof.
  intros Hfind. apply find_some in Hfind as [Hin Hk].
  split; [by apply list_elem_of_In|]. by apply bool_decide_eq_true in Hk.
Qed.

Lemma find_by_key_None {A} (key : A → list N) (k : list N) (l : list A) :
  List.find (λ y, bool_decide (key y = k)) l = None ↔ k ∉ key <$> l.
Proof.
  split.
  - intros Hnone [x [-> Hin]]%list_elem_of_fmap.
    apply list_elem_of_In in Hin.
    pose proof (find_none _ _ Hnone x Hin) as Hx. simpl in Hx.
    by apply bool_decide_eq_false in Hx.
  - intros Hnot.
    destruct (List.find (λ y, bool_decide (key y = k)) l) as [x|] eqn:Hfind;
      [|done].
    apply find_by_key in Hfind as [Hin <-]. destruct Hnot.
    apply list_elem_of_fmap. by exists x.
Qed.

(** *** Compliance report *)





(** X16. The overall compliance score does not look at which company
    is asked for: for any two ids of listed companies the score is the
    same, computed from the provision evaluations currently in the store;
    and for an id of no listed company it is 0. *)
Theorem compliance_score_ignores_company
    (now id1 id2 : jsstring) (st : AuditorState) :
  (id1 ∈ (λ c, org_id (organization c)) <$> companies st →
   id2 ∈ (λ c, org_id (organization c)) <$> companies st →
   getOverallComplianceScore now id1 st = getOverallComplianceScore now id2 st)
  ∧ (id1 ∉ (λ c, org_id (organization c)) <$> companies st →
     getOverallComplianceScore now id1 st = 0%Qc).
Proof.
  unfold getOverallComplianceScore, getComplianceReport. split.
  - intros H1 H2.
    destruct (List.find (λ c, bool_decide (org_id (organization c) = id1))
                        (companies st)) as [c1|] eqn:Hf1;
      [|by apply (find_by_key_None (λ c, org_id (organization c))) in Hf1].
    destruct (List.find (λ c, bool_decide (org_id (organization c) = id2))
                        (companies st)) as [c2|] eqn:Hf2;
      [|by apply (find_by_key_None (λ c, org_id (organization c))) in Hf2].
    by destruct (selectedCompany st).
  - intros Hno.
    apply (find_by_key_None (λ c, org_id (organization c))) in Hno.
    by rewrite Hno.
Qed.

Lemma compliance_score_ignores_company_witness :
  getOverallComplianceScore (js "2024-03-10T16:45:00Z") (js "1")
    two_companies_scored
  = getOverallComplianceScore (js "2024-03-10T16:45:00Z") (js "2")
      two_companies_scored
  ∧ getOverallComplianceScore (js "2024-03-10T16:45:00Z") (js "9")
      two_companies_scored = 0%Qc.
Proof.
  split.
  - apply (proj1 (compliance_score_ignores_company
                    (js "2024-03-10T16:45:00Z") (js "1") (js "2")
                    two_companies_scored)).
    + apply (bool_decide_unpack
               (js "1" ∈ (λ c, org_id (organization c))
                           <$> companies two_companies_scored)).
      vm_compute. exact I.
    + apply (bool_decide_unpack
               (js "2" ∈ (λ c, org_id (organization c))
                           <$> companies two_companies_scored)).
      vm_compute. exact I.
  - apply (proj2 (compliance_score_ignores_company
                    (js "2024-03-10T16:45:00Z") (js "9") (js "1")
                    two_companies_scored)).
    apply (bool_decide_unpack
             (js "9" ∉ (λ c, org_id (organization c))
                         <$> companies two_companies_scored)).
    vm_compute. exact I.
Defined.

(** In that store the first company is the selected one, one of the
    two provision evaluations is a pass, and the score reported for the
    second company, which is not selected, is 50. *)
Lemma compliance_score_sample :
  (λ c, org_id (organization c)) <$> selectedCompany two_companies_scored
  = Some (js "1")
  ∧ size (provisionEvaluations two_companies_scored) = 2%nat
  ∧ getOverallComplianceScore (js "2024-03-10T16:45:00Z") (js "2")
      two_companies_scored = num 50
  ∧ getOverallComplianceScore (js "2024-03-10T16:45:00Z") (js "1")
      two_companies_scored = num 50.
Proof.
  split; [reflexivity|]. split; [vm_compute; reflexivity|].
  split; apply Qc_is_canon; vm_compute; reflexivity.
Qed.

(** X17. [clearEvaluations] does what selecting the same company again
    does, and nothing else: companies, selection, questions, provisions
    and answers stay. After it (and so after any [setSelectedCompany])
    the page statistics read evaluated 0, passed 0, failed 0, pending =
    total, pass percentage 0 and completion percentage 0, and the overall
    compliance score is 0 for every company id. *)
Theorem clearEvaluations_effect (now companyId : jsstring)
    (company : option Company) (st : AuditorState) :
  clearEvaluations st = setSelectedCompany (selectedCompany st) st
  ∧ clearEvaluations (setSelectedCompany company st)
    = setSelectedCompany company st
  ∧ companies (clearEvaluations st) = companies st
  ∧ questions (clearEvaluations st) = questions st
  ∧ provisions (clearEvaluations st) = provisions st
  ∧ answers (clearEvaluations st) = answers st
  ∧ getEvaluationStats (clearEvaluations st)
    = {| total := array_length (questions st); evaluated := 0; passed := 0;
         failed := 0; pending := array_length (questions st);
         completionPercentage := 0%Qc; passPercentage := 0%Qc |}
  ∧ getOverallComplianceScore now companyId (clearEvaluations st) = 0%Qc
  ∧ getOverallComplianceScore now companyId (setSelectedCompany company st)
    = 0%Qc.
Proof.
  do 6 (split; [done|]). split; [|split].
  - unfold getEvaluationStats. simpl. change (array_length []) with 0.
    rewrite Z.sub_0_r. f_equal.
    pose proof (array_length_nonneg (questions st)).
    destruct (Z.gtb_spec (array_length (questions st)) 0); [|done].
    rewrite percentage_formula by lia. apply Q2Qc_eq_iff. done.
  - unfold getOverallComplianceScore, getComplianceReport. simpl.
    destruct (List.find _ (companies st)); [|done].
    by destruct (selectedCompany st).
  - unfold getOverallComplianceScore, getComplianceReport. simpl.
    destruct (List.find _ (companies st)); [|done].
    by destruct company.
Qed.

End AuditorStoreMore.

(** ** Pagination on arbitrary arguments, and the API fallbacks *)

Section ApiMore.
Import Pagination OrganizationsApi.

Lemma slice_infix {A} (arr : list A) (start : Z) (end_ : option Z) :
  ∃ before after, arr = before ++ slice arr start end_ ++ after.
Proof.
  unfold slice.
  set (k := Z.to_nat (relative_index (array_length arr) start)).
  set (n := Z.to_nat (_ - _)).
  exists (take k arr), (drop n (drop k arr)).
  by rewrite take_drop, take_drop.
Qed.

Lemma slice_limit_length {A} (arr : list A) (lim : Z) :
  0 < lim → array_length (slice arr 0 (Some lim)) ≤ lim.
Proof.
  intros Hlim. unfold slice, relative_index, array_length. simpl.
  destruct (Z.ltb_spec lim 0); [lia|].
  rewrite length_take. lia.
Qed.

Lemma applyPagination_infix {A} (items : list A) (options : option Options) :
  ∃ before after, items = before ++ applyPagination items options ++ after.
Proof.
  unfold applyPagination.
  set (r1 := match options ≫= offset with
             | Some off =>
                 if truthy_number off && (off <? array_length items)
                 then slice items off None else items
             | None => items
             end).
  assert (H1 : ∃ before after, items = before ++ r1 ++ after).
  { unfold r1. destruct (options ≫= offset) as [off|];
      [destruct (truthy_number off && (off <? array_length items))|];
      first [apply slice_infix | exists [], []; by rewrite app_nil_r]. }
  destruct H1 as (b1 & a1 & H1).
  assert (H2 : ∃ before after,
             r1 = before
                  ++ match options ≫= limit with
                     | Some lim =>
                         if truthy_number lim then slice r1 0 (Some lim) else r1
                     | None => r1
                     end ++ after).
  { destruct (options ≫= limit) as [lim|];
      [destruct (truthy_number lim)|];
      first [apply slice_infix | exists [], []; by rewrite app_nil_r]. }
  destruct H2 as (b2 & a2 & H2).
  exists (b1 ++ b2), (a2 ++ a1).
  rewrite H1 at 1. rewrite H2 at 1. by rewrite <- !app_assoc.
Qed.

(** X18. Whatever [limit] and [offset] are (absent, zero, negative, or
    beyond the end), [applyPagination] returns a run of consecutive items
    of the input, in their order; and when a positive [limit] is given the
    result has at most [limit] items. *)
Theorem applyPagination_window {A} (items : list A)
    (options : option Options) :
  (∃ before after, items = before ++ applyPagination items options ++ after)
  ∧ array_length (applyPagination items options) ≤ array_length items
  ∧ (∀ lim, options ≫= limit = Some lim → 0 < lim →
       array_length (applyPagination items options) ≤ lim).
Proof.
  split; [apply applyPagination_infix|]. split.
  - destruct (applyPagination_infix items options) as (b & a & H).
    unfold array_length. rewrite H at 2. rewrite !length_app. lia.
  - intros lim Hlim Hpos. unfold applyPagination. rewrite Hlim.
    assert (Ht : truthy_number lim = true).
    { unfold truthy_number. destruct (Z.eqb_spec lim 0); [lia|done]. }
    rewrite Ht. by apply slice_limit_length.
Qed.

Lemma applyPagination_window_witness :
  array_length
    (applyPagination (js "abcdefgh")
       (Some {| limit := Some 3; offset := Some (-5) |}))
  ≤ 3.
Proof.
  apply (proj2 (proj2 (applyPagination_window (js "abcdefgh")
           (Some {| limit := Some 3; offset := Some (-5) |}))) 3).
  - reflexivity.
  - lia.
Defined.

(** X19. Negative arguments count from the end, as [slice] does: a
    negative [offset] of -k keeps the last k items (all of them when k
    exceeds the length), and a negative [limit] of -k drops the last k
    items (leaving none when k exceeds the length). *)
Theorem applyPagination_negative {A} (items : list A) (k : nat) :
  (0 < k)%nat →
  applyPagination items
    (Some {| limit := None; offset := Some (- Z.of_nat k) |})
  = drop (length items - k) items
  ∧ applyPagination items
      (Some {| limit := Some (- Z.of_nat k); offset := None |})
    = take (length items - k) items.
Proof.
  intros Hk. unfold applyPagination. simpl.
  assert (Ht : truthy_number (- Z.of_nat k) = true).
  { unfold truthy_number. destruct (Z.eqb_spec (- Z.of_nat k) 0); [lia|done]. }
  rewrite Ht. split.
  - destruct (Z.ltb_spec (- Z.of_nat k) (array_length items)) as [_|Hge];
      [|unfold array_length in Hge; lia].
    simpl. unfold slice, relative_index, array_length. simpl.
    destruct (Z.ltb_spec (- Z.of_nat k) 0); [|lia].
    replace (Z.to_nat (Z.max (Z.of_nat (length items) + - Z.of_nat k) 0))
      with (length items - k)%nat by lia.
    apply take_ge. rewrite length_drop. lia.
  - unfold slice, relative_index, array_length. simpl.
    destruct (Z.ltb_spec (- Z.of_nat k) 0); [|lia].
    rewrite (Z.min_l 0) by lia. change (Z.to_nat 0) with 0%nat.
    rewrite drop_0. f_equal. lia.
Qed.

Lemma applyPagination_negative_witness :
  applyPagination (js "abcdefgh")
    (Some {| limit := None; offset := Some (-3) |}) = js "fgh"
  ∧ applyPagination (js "abcdefgh")
      (Some {| limit := Some (-3); offset := None |}) = js "abcde".
Proof.
  apply (applyPagination_negative (js "abcdefgh") 3). lia.
Defined.

Lemma NoDup_infix {A B} (f : A → B) (l before mid after : list A) :
  l = before ++ mid ++ after → NoDup (f <$> l) → NoDup (f <$> mid).
Proof.
  intros -> Hnd. rewrite !fmap_app in Hnd.
  apply NoDup_app in Hnd as (_ & _ & Hnd).
  by apply NoDup_app in Hnd as (Hnd & _ & _).
Qed.

Lemma MOCK_QUESTIONS_ids_distinct :
  NoDup (q_id <$> QuestionsApi.MOCK_QUESTIONS).
Proof.
  apply (bool_decide_unpack (NoDup (q_id <$> QuestionsApi.MOCK_QUESTIONS))).
  vm_compute. exact I.
Qed.

(** X20. When the backend is unavailable, [questionsApi.getAll] hands
    out questions with pairwise different ids, whatever pagination is
    asked for, and never more than the ten mock questions; without
    options it hands out all ten. *)
Theorem questions_fallback_ids_distinct (options : option Options) :
  NoDup (q_id <$> QuestionsApi.getAll Rejected options)
  ∧ array_length (QuestionsApi.getAll Rejected options) ≤ 10
  ∧ QuestionsApi.getAll Rejected None = QuestionsApi.MOCK_QUESTIONS.
Proof.
  simpl.
  destruct (applyPagination_infix QuestionsApi.MOCK_QUESTIONS options)
    as (b & a & H).
  split; [|split; [|done]].
  - eapply NoDup_infix; [exact H|]. apply MOCK_QUESTIONS_ids_distinct.
  - apply (f_equal length) in H. rewrite !length_app in H.
    change (length QuestionsApi.MOCK_QUESTIONS) with 10%nat in H.
    unfold array_length. lia.
Qed.

(** *** Lookups by id *)

Lemma find_by_key_unique {A} (key : A → list N) (l : list A) (x : A) :
  NoDup (key <$> l) → x ∈ l →
  List.find (λ y, bool_decide (key y = key x)) l = Some x.
Proof.
  induction l as [|y l IH]; intros Hnd Hin; [by apply not_elem_of_nil in Hin|].
  rewrite fmap_cons in Hnd. apply NoDup_cons in Hnd as [Hy Hnd].
  simpl. apply elem_of_cons in Hin as [->|Hin].
  - by rewrite bool_decide_eq_true_2.
  - rewrite bool_decide_eq_false_2; [by apply IH|].
    intros Heq. apply Hy. rewrite Heq. apply list_elem_of_fmap. by exists x.
Qed.

Lemma MOCK_ORGANIZATIONS_ids_distinct :
  NoDup (org_id <$> MOCK_ORGANIZATIONS).
Proof.
  apply (bool_decide_unpack (NoDup (org_id <$> MOCK_ORGANIZATIONS))).
  vm_compute. exact I.
Qed.

(** X21. With the backend unavailable, [organizationsApi.getById]
    returns an organization exactly when it is the mock organization
    carrying the requested id, and throws 'Organization not found'
    exactly when no mock organization has that id; it throws nothing
    else. *)
Theorem organizations_getById_fallback (id : jsstring) :
  (∀ org, getById Rejected id = Returned org
          ↔ org ∈ MOCK_ORGANIZATIONS ∧ org_id org = id)
  ∧ (getById Rejected id = Thrown (js "Organization not found")
     ↔ id ∉ org_id <$> MOCK_ORGANIZATIONS)
  ∧ (∀ msg, getById Rejected id = Thrown msg
            → msg = js "Organization not found").
Proof.
  unfold getById.
  destruct (List.find (λ org, bool_decide (org_id org = id)) MOCK_ORGANIZATIONS)
    as [found|] eqn:Hfind.
  - pose proof Hfind as Hfound. apply find_by_key in Hfound as [Hin Hid].
    split; [|split].
    + intros org. split.
      * by intros [= <-].
      * intros [Horg Hoid]. f_equal.
        pose proof (find_by_key_unique org_id _ org
                      MOCK_ORGANIZATIONS_ids_distinct Horg) as Hu.
        rewrite Hoid in Hu. congruence.
    + split; [done|]. intros Hno. destruct Hno.
      apply list_elem_of_fmap. by exists found.
    + done.
  - split; [|split].
    + intros org. split; [done|]. intros [Horg Hoid].
      apply find_by_key_None in Hfind. destruct Hfind.
      apply list_elem_of_fmap. by exists org.
    + split; [|done]. intros _. by apply find_by_key_None in Hfind.
    + by intros msg [= <-].
Qed.

Lemma organizations_getById_fallback_witness :
  getById Rejected (js "42") = Thrown (js "Organization not found").
Proof.
  apply (proj1 (proj2 (organizations_getById_fallback (js "42")))).
  apply (bool_decide_unpack (js "42" ∉ org_id <$> MOCK_ORGANIZATIONS)).
  vm_compute. exact I.
Defined.

(** X22. With the backend unavailable, [questionsApi.getById] returns
    a question exactly when it is the mock question carrying the
    requested id, and throws 'Question not found' exactly when no mock
    question has that id. *)
Theorem questions_getById_fallback (id : jsstring) :
  (∀ q, QuestionsApi.getById Rejected id = Returned q
        ↔ q ∈ QuestionsApi.MOCK_QUESTIONS ∧ q_id q = id)
  ∧ (QuestionsApi.getById Rejected id = Thrown (js "Question not found")
     ↔ id ∉ q_id <$> QuestionsApi.MOCK_QUESTIONS).
Proof.
  unfold QuestionsApi.getById.
  destruct (List.find (λ q, bool_decide (q_id q = id))
                      QuestionsApi.MOCK_QUESTIONS) as [found|] eqn:Hfind.
  - pose proof Hfind as Hfound. apply find_by_key in Hfound as [Hin Hid].
    split.
    + intros q. split.
      * by intros [= <-].
      * intros [Hq Hqid]. f_equal.
        pose proof (find_by_key_unique q_id _ q
                      MOCK_QUESTIONS_ids_distinct Hq) as Hu.
        rewrite Hqid in Hu. congruence.
    + split; [done|]. intros Hno. destruct Hno.
      apply list_elem_of_fmap. by exists found.
  - split.
    + intros q. split; [done|]. intros [Hq Hqid].
      apply find_by_key_None in Hfind. destruct Hfind.
      apply list_elem_of_fmap. by exists q.
    + split; [|done]. intros _. by apply find_by_key_None in Hfind.
Qed.

Lemma questions_getById_fallback_witness :
  QuestionsApi.getById Rejected (js "11") = Thrown (js "Question not found").
Proof.
  apply (proj2 (questions_getById_fallback (js "11"))).
  apply (bool_decide_unpack (js "11" ∉ q_id <$> QuestionsApi.MOCK_QUESTIONS)).
  vm_compute. exact I.
Defined.

(** X23. With the backend unavailable, [searchByEmployeeCount] returns
    the mock organizations whose employee count lies in the closed range,
    in the order of the mock list; nothing when the range is empty; and
    widening the range never loses a result. *)
Theorem searchByEmployeeCount_fallback (minEmployees maxEmployees : Z) :
  (∀ org, org ∈ searchByEmployeeCount Rejected minEmployees maxEmployees
          ↔ org ∈ MOCK_ORGANIZATIONS
            ∧ minEmployees ≤ empCount org ≤ maxEmployees)
  ∧ searchByEmployeeCount Rejected minEmployees maxEmployees
    `sublist_of` MOCK_ORGANIZATIONS
  ∧ (maxEmployees < minEmployees →
     searchByEmployeeCount Rejected minEmployees maxEmployees = [])
  ∧ (∀ lower upper, lower ≤ minEmployees → maxEmployees ≤ upper →
       searchByEmployeeCount Rejected minEmployees maxEmployees
       ⊆ searchByEmployeeCount Rejected lower upper).
Proof.
  assert (Hmem : ∀ lo hi org,
    org ∈ searchByEmployeeCount Rejected lo hi
    ↔ org ∈ MOCK_ORGANIZATIONS ∧ lo ≤ empCount org ≤ hi).
  { intros lo hi org. unfold searchByEmployeeCount.
    rewrite list_elem_of_filter, andb_True.
    rewrite !Is_true_true, Z.geb_le, Z.leb_le. tauto. }
  split; [apply Hmem|]. split; [apply sublist_filter|]. split.
  - intros Hempty.
    destruct (searchByEmployeeCount Rejected minEmployees maxEmployees)
      as [|org rest] eqn:Hres; [done|].
    assert (org ∈ searchByEmployeeCount Rejected minEmployees maxEmployees)
      as Hin by (rewrite Hres; left).
    apply Hmem in Hin. lia.
  - intros lower upper Hlo Hhi org Hin.
    apply Hmem in Hin as [Hin Hrange]. apply Hmem. split; [done|lia].
Qed.

Lemma searchByEmployeeCount_fallback_witness :
  searchByEmployeeCount Rejected 200 100 = []
  ∧ searchByEmployeeCount Rejected 100 200
    ⊆ searchByEmployeeCount Rejected 50 400.
Proof.
  split.
  - apply (proj1 (proj2 (proj2 (searchByEmployeeCount_fallback 200 100)))).
    lia.
  - apply (proj2 (proj2 (proj2 (searchByEmployeeCount_fallback 100 200)))
             50 400); lia.
Defined.

(** X24. With the backend unavailable, [companiesApi.getById] answers
    with a company of the requested id or with [null]: a mock
    organization with that id is returned (as a company, status active)
    even if a stored company has the same id; otherwise the first stored
    company with that id; and [null] exactly when neither exists. *)
Theorem companies_getById_fallback (stored : list Company) (id : jsstring) :
  (∀ c, CompaniesApi.getById Rejected stored id = Some c →
        org_id (organization c) = id)
  ∧ (∀ org, org ∈ MOCK_ORGANIZATIONS → org_id org = id →
        CompaniesApi.getById Rejected stored id
        = Some (CompaniesApi.organizationToCompany org))
  ∧ (id ∉ org_id <$> MOCK_ORGANIZATIONS →
     CompaniesApi.getById Rejected stored id
     = List.find (λ c, bool_decide (org_id (organization c) = id)) stored)
  ∧ (CompaniesApi.getById Rejected stored id = None
     ↔ (id ∉ org_id <$> MOCK_ORGANIZATIONS)
       ∧ (id ∉ (λ c, org_id (organization c)) <$> stored)).
Proof.
  unfold CompaniesApi.getById, getById.
  destruct (List.find (λ org, bool_decide (org_id org = id)) MOCK_ORGANIZATIONS)
    as [found|] eqn:Hfind.
  - pose proof Hfind as Hfound. apply find_by_key in Hfound as [Hin Hid].
    assert (Hmock : id ∈ org_id <$> MOCK_ORGANIZATIONS)
      by (apply list_elem_of_fmap; by exists found).
    split; [by intros c [= <-]|]. split; [|split].
    + intros org Horg Hoid. do 2 f_equal.
      pose proof (find_by_key_unique org_id _ org
                    MOCK_ORGANIZATIONS_ids_distinct Horg) as Hu.
      rewrite Hoid in Hu. congruence.
    + done.
    + split; [done|]. by intros [? _].
  - apply find_by_key_None in Hfind.
    split; [|split; [|split]].
    + intros c Hc.
      by apply (find_by_key (λ c, org_id (organization c))) in Hc as [_ ?].
    + intros org Horg Hoid. destruct Hfind.
      apply list_elem_of_fmap. by exists org.
    + done.
    + rewrite (find_by_key_None (λ c, org_id (organization c))). tauto.
Qed.

Lemma companies_getById_fallback_witness :
  CompaniesApi.getById Rejected [Samples.sample_company] (js "1")
  = Some Samples.sample_company
  ∧ CompaniesApi.getById Rejected [Samples.sample_company] (js "42") = None.
Proof.
  split.
  - apply (proj1 (proj2 (companies_getById_fallback
                           [Samples.sample_company] (js "1")))).
    + left.
    + reflexivity.
  - apply (proj2 (proj2 (proj2 (companies_getById_fallback
                                  [Samples.sample_company] (js "42"))))).
    split.
    + apply (bool_decide_unpack (js "42" ∉ org_id <$> MOCK_ORGANIZATIONS)).
      vm_compute. exact I.
    + apply (bool_decide_unpack
               (js "42" ∉ (λ c, org_id (organization c))
                            <$> [Samples.sample_company])).
      vm_compute. exact I.
Defined.

(** *** Error messages *)

Lemma or_else_nonempty (a : option jsstring) (b : jsstring) :
  b ≠ [] → or_else a b ≠ [].
Proof.
  intros Hb. unfold or_else. destruct a as [[|c s]|]; simpl; done.
Qed.

(** X25. [handleApiError] never yields an empty message unless it is
    explicitly given an empty fallback: with the default fallback or any
    non-empty one the result is non-empty for every error. And a server
    response takes precedence: when the error carries a response, the
    result does not depend on the request or on the error's own
    message. *)
Theorem handleApiError_never_empty
    (error : ApiError) (fallbackMessage_ : option jsstring) :
  (fallbackMessage_ ≠ Some [] → handleApiError error fallbackMessage_ ≠ [])
  ∧ (∀ r req msg req' msg',
       handleApiError
         {| response := Some r; has_request := req; error_message := msg |}
         fallbackMessage_
       = handleApiError
           {| response := Some r; has_request := req'; error_message := msg' |}
           fallbackMessage_).
Proof.
  split; [|done]. intros Hfb. unfold handleApiError.
  assert (Hne : default (js "An error occurred") fallbackMessage_ ≠ []).
  { destruct fallbackMessage_ as [[|c s]|]; simpl; done. }
  destruct (response error) as [r|].
  - by do 2 apply or_else_nonempty.
  - destruct (has_request error); [done|]. by apply or_else_nonempty.
Qed.

Lemma handleApiError_never_empty_witness :
  handleApiError
    {| response := Some {| data := Some {| detail := Some []; message := None |} |};
       has_request := true; error_message := None |}
    None
  ≠ [].
Proof.
  apply (proj1 (handleApiError_never_empty _ None)). discriminate.
Defined.

End ApiMore.
